(** * propforge: path-based property access and the template engine

    A shallow embedding of [src/props.ts], [src/utils/validation.ts],
    [src/utils/debug.ts] (the switch and the module loggers) and
    [src/template.ts], followed by the properties of the specification
    that concern them and by further properties of the code.

    Conventions of the embedding.

    - JavaScript values are the closed datatype [value]: the JSON-like
      data the library is used on, plus [undefined].  Objects are finite
      maps from property names to values (own data properties; members
      inherited from the built-in prototypes, such as [toString], are
      not part of the data model).  Arrays are lists of slots, a slot
      being either filled or a hole, together with the named properties
      an array can carry besides its elements.
    - Numbers are the integers.  Strings are sequences of 8-bit
      characters.
    - The library mutates its argument in place and hands the same
      reference back.  A [value] is a snapshot of a container whose
      sub-containers are not shared and not cyclic, so an in-place update
      is the snapshot with the new child written back at the same key.
    - Source files are ECMAScript modules, hence strict-mode code:
      assigning a property of a primitive raises a [TypeError].
    - A call either returns, or throws, or leaves the modelled fragment
      ([Unmodelled]); the last outcome is produced where the result would
      depend on parts of the language that the datatype above does not
      carry, and nothing is claimed about it. *)

From Stdlib Require Import ZArith NArith Ascii Lia.
From stdpp Require Import base option list gmap strings pretty.

Set Warnings "-register-all".
Local Open Scope Z_scope.
Local Open Scope string_scope.

(* ================================================================== *)
(** * Strings: the [String.prototype] methods the sources call *)
(* ================================================================== *)

Module JsString.

(** The white space that [trim] strips, within 8-bit characters:
    TAB, LF, VT, FF, CR, SPACE and NO-BREAK SPACE. *)
Definition is_white (c : ascii) : bool :=
  bool_decide (N_of_ascii c ∈ [9; 10; 11; 12; 13; 32; 160]%N).

Definition is_empty (s : string) : bool :=
  match s with EmptyString => true | String _ _ => false end.

Fixpoint trimStart (s : string) : string :=
  match s with
  | String c s' => if is_white c then trimStart s' else s
  | EmptyString => EmptyString
  end.

Fixpoint trimEnd (s : string) : string :=
  match s with
  | String c s' =>
      let r := trimEnd s' in
      if is_white c && is_empty r then EmptyString else String c r
  | EmptyString => EmptyString
  end.

Definition trim (s : string) : string := trimEnd (trimStart s).

(** [s.split(sep)] for a one-character separator; the result is never
    the empty list ([split sep "" = [""]]). *)
Fixpoint split (sep : ascii) (s : string) : list string :=
  match s with
  | EmptyString => [EmptyString]
  | String c s' =>
      if decide (c = sep) then EmptyString :: split sep s'
      else match split sep s' with
           | h :: t => String c h :: t
           | [] => [String c EmptyString]
           end
  end.

Fixpoint startsWith (s p : string) : bool :=
  match p, s with
  | EmptyString, _ => true
  | String a p', String b s' => bool_decide (a = b) && startsWith s' p'
  | String _ _, EmptyString => false
  end.

Fixpoint drop (n : nat) (s : string) : string :=
  match n, s with
  | O, _ => s
  | S n', String _ s' => drop n' s'
  | S _, EmptyString => EmptyString
  end.

Fixpoint take (n : nat) (s : string) : string :=
  match n, s with
  | S n', String c s' => String c (take n' s')
  | _, _ => EmptyString
  end.

Definition endsWith (s p : string) : bool :=
  (String.length p <=? String.length s)%nat
  && bool_decide (drop (String.length s - String.length p) s = p).

(** [s.indexOf(p)]: [None] stands for [-1]. *)
Fixpoint indexOf (s p : string) : option nat :=
  if startsWith s p then Some O
  else match s with
       | EmptyString => None
       | String _ s' => S <$> indexOf s' p
       end.

Definition includes (s p : string) : bool :=
  match indexOf s p with Some _ => true | None => false end.

(** [s.slice(1, -1)] *)
Definition slice_1_m1 (s : string) : string :=
  take (String.length s - 2) (drop 1 s).

(** The replacement text of [String.prototype.replace] when the pattern
    is a string (GetSubstitution without captures): [$$] is a dollar,
    [$&] the matched text, [$`] what precedes the match, [$'] what
    follows it; any other character stands for itself. *)
Fixpoint substitution (matched before after repl : string) : string :=
  match repl with
  | EmptyString => EmptyString
  | String c r =>
      if decide (c = "$"%char) then
        match r with
        | EmptyString => String c EmptyString
        | String d r' =>
            if decide (d = "$"%char)
            then String "$" (substitution matched before after r')
            else if decide (d = "&"%char)
            then matched +:+ substitution matched before after r'
            else if decide (d = "`"%char)
            then before +:+ substitution matched before after r'
            else if decide (d = "'"%char)
            then after +:+ substitution matched before after r'
            else String c (substitution matched before after r)
        end
      else String c (substitution matched before after r)
  end.

(** [s.replace(p, repl)] for a string pattern: only the first
    occurrence of [p] is replaced. *)
Definition replace (s p repl : string) : string :=
  match indexOf s p with
  | None => s
  | Some i =>
      let before := take i s in
      let after := drop (i + String.length p) s in
      before +:+ substitution p before after repl +:+ after
  end.

End JsString.

(* ================================================================== *)
(** * Numbers written as text *)
(* ================================================================== *)

Module JsNumber.

(** The digits are the characters of codes 48 to 57. *)
Definition digit (c : ascii) : option N :=
  let code := N_of_ascii c in
  if (48 <=? code)%N && (code <=? 57)%N then Some (code - 48)%N else None.

Definition is_digit (c : ascii) : bool :=
  match digit c with Some _ => true | None => false end.

(** The value of the longest prefix of decimal digits, read after
    [acc], and whether the whole string was consumed. *)
Fixpoint digits (s : string) (acc : N) : N * bool :=
  match s with
  | EmptyString => (acc, true)
  | String c s' =>
      match digit c with
      | Some d => digits s' (10 * acc + d)%N
      | None => (acc, false)
      end
  end.

Definition starts_with_digit (s : string) : bool :=
  match s with String c _ => is_digit c | EmptyString => false end.

(** [Number.parseInt(s, 10)]: leading white space and a sign are
    skipped, then the longest run of digits is read; [None] is [NaN]. *)
Definition parseInt (s : string) : option Z :=
  let t := JsString.trimStart s in
  let '(neg, u) :=
    match t with
    | String "-" u => (true, u)
    | String "+" u => (false, u)
    | _ => (false, t)
    end in
  if starts_with_digit u
  then let n := Z.of_N (fst (digits u 0%N)) in Some (if neg then - n else n)
  else None.

(** An array index is a property name that is the decimal text of an
    integer below [2^32 - 1], in its canonical form: the text read as
    a number and printed again is the name itself. *)
Definition array_index (s : string) : option nat :=
  match digits s 0%N with
  | (n, true) =>
      if (n <? 4294967295)%N && bool_decide (pretty n = s)
      then Some (N.to_nat n) else None
  | (_, false) => None
  end.

(** [Number(s)] on a string.  Decimal integers, with an optional sign
    and surrounding white space, are read exactly and the empty string
    is [0]; a text that starts like another numeric form (a fraction,
    an exponent, a radix prefix, [Infinity]) is left to [Other]; every
    remaining text is [NaN]. *)
Inductive parsed := Int (n : Z) | NaN | Other.

Definition ofString (s : string) : parsed :=
  let t := JsString.trim s in
  if JsString.is_empty t then Int 0
  else
    let '(neg, u) :=
      match t with
      | String "-" u => (true, u)
      | String "+" u => (false, u)
      | _ => (false, t)
      end in
    match u with
    | EmptyString => NaN
    | String c _ =>
        if is_digit c then
          match digits u 0%N with
          | (n, true) => Int (if neg then - Z.of_N n else Z.of_N n)
          | (_, false) => Other
          end
        else if bool_decide (c = "."%char) || JsString.startsWith u "Infinity"
        then Other
        else NaN
    end.

End JsNumber.

(* ================================================================== *)
(** * Values, errors and outcomes *)
(* ================================================================== *)

Inductive value : Type :=
| VUndefined
| VNull
| VBool (b : bool)
| VNum (n : Z)
| VStr (s : string)
| VObj (props : gmap string value)
| VArr (elems : list (option value)) (extra : gmap string value).

Definition is_undefined (v : value) : bool :=
  match v with VUndefined => true | _ => false end.

(** [v === null || v === undefined] *)
Definition is_nullish (v : value) : bool :=
  match v with VUndefined | VNull => true | _ => false end.

(** [Array.isArray(v)] *)
Definition isArray (v : value) : bool :=
  match v with VArr _ _ => true | _ => false end.

Definition is_container (v : value) : bool :=
  match v with VObj _ | VArr _ _ => true | _ => false end.

(** [a ?? b] *)
Definition nullish_coalesce (a b : value) : value :=
  if is_nullish a then b else a.

Inductive error_class := ClsError | ClsTemplateError | ClsTypeError | ClsRangeError.

(** A thrown [Error] object: its class and its [message].  The wording
    of the messages of errors raised by the runtime itself differs
    between engines; one wording per cause is fixed here. *)
Record js_error := mkError { err_class : error_class; err_message : string }.

Inductive outcome (A : Type) : Type :=
| Ret (a : A)
| Throw (e : js_error)
| Unmodelled.
Arguments Ret {A} a.
Arguments Throw {A} e.
Arguments Unmodelled {A}.

#[global] Instance outcome_ret : MRet outcome := fun A a => Ret a.
#[global] Instance outcome_bind : MBind outcome := fun A B f m =>
  match m with
  | Ret a => f a
  | Throw e => Throw e
  | Unmodelled => Unmodelled
  end.

Definition type_error (what : string) : js_error := mkError ClsTypeError what.
Definition range_error (what : string) : js_error := mkError ClsRangeError what.

(* ================================================================== *)
(** * Property access on one value *)
(* ================================================================== *)

Module Member.

Definition char_at (s : string) (i : nat) : value :=
  match String.get i s with
  | Some c => VStr (String c EmptyString)
  | None => VUndefined
  end.

(** [current[part]], read. *)
Definition get_member (current : value) (part : string) : outcome value :=
  match current with
  | VUndefined | VNull =>
      Throw (type_error "Cannot read properties of null or undefined")
  | VBool _ | VNum _ => Ret VUndefined
  | VStr s =>
      match JsNumber.array_index part with
      | Some i => Ret (char_at s i)
      | None =>
          if decide (part = "length") then Ret (VNum (Z.of_nat (String.length s)))
          else Ret VUndefined
      end
  | VObj props => Ret (default VUndefined (props !! part))
  | VArr elems extra =>
      match JsNumber.array_index part with
      | Some i => Ret (default VUndefined (mjoin (elems !! i)))
      | None =>
          if decide (part = "length") then Ret (VNum (Z.of_nat (length elems)))
          else Ret (default VUndefined (extra !! part))
      end
  end.

(** [part in current] *)
Definition has_member (current : value) (part : string) : outcome bool :=
  match current with
  | VObj props => Ret (bool_decide (is_Some (props !! part)))
  | VArr elems extra =>
      match JsNumber.array_index part with
      | Some i => Ret (bool_decide (is_Some (mjoin (elems !! i))))
      | None =>
          if decide (part = "length") then Ret true
          else Ret (bool_decide (is_Some (extra !! part)))
      end
  | _ => Throw (type_error "Cannot use 'in' operator on a value that is not an object")
  end.

(** [current[part] = v] in strict-mode code.  Writing an element at or
    past the end of an array extends it, the slots in between being
    holes.  Writing [length] resizes the array when the new length is
    a number; a length that is not a valid array length is a
    [RangeError], and the conversion of other values to a length is
    not modelled. *)
Definition set_member (current : value) (part : string) (v : value) : outcome value :=
  match current with
  | VObj props => Ret (VObj (<[part := v]> props))
  | VArr elems extra =>
      match JsNumber.array_index part with
      | Some i =>
          if decide (i < length elems)%nat
          then Ret (VArr (<[i := Some v]> elems) extra)
          else Ret (VArr (elems ++ replicate (i - length elems) None ++ [Some v]) extra)
      | None =>
          if decide (part = "length") then
            match v with
            | VNum n =>
                if decide (0 <= n < 4294967296)
                then Ret (VArr (resize (Z.to_nat n) None elems) extra)
                else Throw (range_error "Invalid array length")
            | VUndefined => Throw (range_error "Invalid array length")
            | _ => Unmodelled
            end
          else Ret (VArr elems (<[part := v]> extra))
      end
  | VUndefined | VNull =>
      Throw (type_error "Cannot set properties of null or undefined")
  | VBool _ | VNum _ | VStr _ =>
      Throw (type_error "Cannot create property on a primitive value")
  end.

(** [delete current[part]] in strict-mode code. *)
Definition delete_member (current : value) (part : string) : outcome value :=
  match current with
  | VObj props => Ret (VObj (delete part props))
  | VArr elems extra =>
      match JsNumber.array_index part with
      | Some i => Ret (VArr (<[i := None]> elems) extra)
      | None =>
          if decide (part = "length")
          then Throw (type_error "Cannot delete property 'length'")
          else Ret (VArr elems (delete part extra))
      end
  | VStr s =>
      match JsNumber.array_index part with
      | Some i =>
          if decide (i < String.length s)%nat
          then Throw (type_error "Cannot delete a character of a string")
          else Ret current
      | None =>
          if decide (part = "length")
          then Throw (type_error "Cannot delete property 'length'")
          else Ret current
      end
  | VBool _ | VNum _ => Ret current
  | VUndefined | VNull =>
      Throw (type_error "Cannot convert undefined or null to object")
  end.

(** [elems.splice(index, 1)]: a negative [index] counts from the end;
    nothing is removed when the start lies at or past the end. *)
Definition splice1 (elems : list (option value)) (index : Z) : list (option value) :=
  let len := Z.of_nat (length elems) in
  let start := if decide (index < 0) then Z.max (len + index) 0 else Z.min index len in
  if decide (start < len) then delete (Z.to_nat start) elems else elems.

(** The parent [current] holds a reference to the child it yielded at
    [part]; once the child has been mutated, the parent's snapshot is
    the old one with the child's new snapshot at [part].  Primitive
    parents hold no reference. *)
Definition write_back (current : value) (part : string) (child : value) : value :=
  match current with
  | VObj props => VObj (<[part := child]> props)
  | VArr elems extra =>
      match JsNumber.array_index part with
      | Some i => VArr (<[i := Some child]> elems) extra
      | None =>
          if decide (part = "length") then current
          else VArr elems (<[part := child]> extra)
      end
  | _ => current
  end.

End Member.
Export Member.

(* ================================================================== *)
(** * src/utils/validation.ts *)
(* ================================================================== *)

Module Validation.

(** [enum ValidationError] *)
Definition NULL_OR_UNDEFINED : string := "Object cannot be null or undefined".
Definition INVALID_PATH : string := "Path must be a non-empty string".
Definition SECURITY_VIOLATION : string := "Security violation detected".

(** [Object.values(SecurityValidation)] *)
Definition securityTerms : list string :=
  ["__proto__"; "constructor"; "prototype"; "get"; "set"; "defineProperty"].

Definition security_violation (part : string) : js_error :=
  mkError ClsError
    (SECURITY_VIOLATION +:+ ": Access to " +:+ part +:+ " is not allowed").

Fixpoint check_parts (parts : list string) : outcome unit :=
  match parts with
  | [] => Ret tt
  | part :: rest =>
      if bool_decide (part ∈ securityTerms)
      then Throw (security_violation part)
      else check_parts rest
  end.

Definition validateSecurityTerms (path : string) : outcome unit :=
  check_parts (JsString.split "." path).

(** The path is typed as a string but checked at run time, so it is
    taken as an arbitrary value here; of the values of the datatype
    only the empty string is falsy among strings, and every value that
    is not a string fails [typeof path !== "string"]. *)
Definition validateInput (obj path : value) : outcome unit :=
  if is_nullish obj then Throw (mkError ClsError NULL_OR_UNDEFINED)
  else
    match path with
    | VStr p =>
        if JsString.is_empty p || JsString.is_empty (JsString.trim p)
        then Throw (mkError ClsError INVALID_PATH)
        else validateSecurityTerms p
    | _ => Throw (mkError ClsError INVALID_PATH)
    end.

End Validation.
Export Validation.

(* ================================================================== *)
(** * src/props.ts *)
(* ================================================================== *)

(** Each function of the module runs inside
    [try { ... } catch (error) { propsLogger.error(...); throw error; }]
    and reports what it does to [propsLogger]; these calls only write to
    the console and are left out, the error going on unchanged.  Module
    [Logged] below has the same functions with them. *)
Module Props.

(** [type Transformer = (value) => value]; a user function may throw. *)
Definition Transformer : Type := value -> outcome value.

(** [interface Transformers]: per operation, the entries of the record
    in [Object.entries] order.  An operation without transformers is
    the empty list. *)
Record Transformers := {
  tr_getProp : list (string * Transformer);
  tr_setProp : list (string * Transformer);
  tr_hasProp : list (string * Transformer);
  tr_removeProp : list (string * Transformer)
}.

(** [interface PropsConfig]; an absent [fallback] is [undefined]. *)
Record PropsConfig := {
  fallback : value;
  transformers : Transformers
}.

(** [let globalConfig: PropsConfig = {}] *)
Definition no_transformers : Transformers :=
  {| tr_getProp := []; tr_setProp := []; tr_hasProp := []; tr_removeProp := [] |}.
Definition initialConfig : PropsConfig :=
  {| fallback := VUndefined; transformers := no_transformers |}.

(** The argument of [props.use]: each key may be left out. *)
Record PartialConfig := {
  new_fallback : option value;
  new_transformers : option Transformers
}.

(** [props.use(config)]: [globalConfig = { ...globalConfig, ...config }],
    the keys that [config] has replacing those of the configuration. *)
Definition use (globalConfig : PropsConfig) (config : PartialConfig) : PropsConfig :=
  {| fallback := default (fallback globalConfig) (new_fallback config);
     transformers := default (transformers globalConfig) (new_transformers config) |}.

Fixpoint applyTransformers (v : value) (path : string)
    (entries : list (string * Transformer)) : outcome value :=
  match entries with
  | [] => Ret v
  | (name, transformer) :: rest =>
      if JsString.endsWith path name
      then result ← transformer v; applyTransformers result path rest
      else applyTransformers v path rest
  end.

(** Whether some transformer of [entries] applies to [path]. *)
Definition fires (path : string) (entries : list (string * Transformer)) : bool :=
  existsb (fun e => JsString.endsWith path e.1) entries.

(** The text of a path that passed [validateInput]. *)
Definition path_text (path : value) : string :=
  match path with VStr p => p | _ => EmptyString end.

(** The loop of [getProp]; [None] is the early return of the fallback
    from inside the loop. *)
Fixpoint getProp_loop (current : value) (parts : list string) : outcome (option value) :=
  match parts with
  | [] => Ret (Some current)
  | part :: rest =>
      if is_nullish current then Ret None
      else next ← get_member current part; getProp_loop next rest
  end.

Definition getProp (cfg : PropsConfig) (obj path defaultValue : value) : outcome value :=
  _ ← validateInput obj path;
  _ ← validateSecurityTerms (path_text path);
  let parts := JsString.split "." (path_text path) in
  found ← getProp_loop obj parts;
  match found with
  | None => Ret (nullish_coalesce defaultValue (fallback cfg))
  | Some current =>
      if is_undefined current
      then Ret (nullish_coalesce defaultValue (fallback cfg))
      else applyTransformers current (path_text path) (tr_getProp (transformers cfg))
  end.

(** The loop of [setProp] followed by the final assignment, returning
    the snapshot of [current] after the mutation below it. *)
Fixpoint setProp_loop (current : value) (parts : list string) (v : value) : outcome value :=
  match parts with
  | [] => Ret current
  | [last] => set_member current last v
  | part :: rest =>
      child ← get_member current part;
      current ← (if is_undefined child then set_member current part (VObj ∅)
                 else Ret current);
      child ← get_member current part;
      child ← setProp_loop child rest v;
      Ret (write_back current part child)
  end.

Definition setProp (cfg : PropsConfig) (obj path v : value) : outcome value :=
  _ ← validateInput obj path;
  _ ← validateSecurityTerms (path_text path);
  transformedValue ← applyTransformers v (path_text path) (tr_setProp (transformers cfg));
  let parts := JsString.split "." (path_text path) in
  setProp_loop obj parts transformedValue.

Fixpoint hasProp_loop (current : value) (parts : list string) : outcome bool :=
  match parts with
  | [] => Ret true
  | part :: rest =>
      if is_nullish current then Ret false
      else
        present ← has_member current part;
        if negb present then Ret false
        else next ← get_member current part; hasProp_loop next rest
  end.

Definition hasProp (obj path : value) : outcome bool :=
  _ ← validateInput obj path;
  _ ← validateSecurityTerms (path_text path);
  hasProp_loop obj (JsString.split "." (path_text path)).

(** The loop of [removeProp] and the removal after it, returning the
    snapshot of [current] afterwards; every [return obj] of the source
    leaves [current] as it is. *)
Fixpoint removeProp_loop (current : value) (parts : list string) : outcome value :=
  match parts with
  | [] => Ret current
  | [lastPart] =>
      if is_nullish current then Ret current
      else
        match current with
        | VArr elems extra =>
            match JsNumber.parseInt lastPart with
            | Some index => Ret (VArr (splice1 elems index) extra)
            | None => Ret current
            end
        | _ => delete_member current lastPart
        end
  | part :: rest =>
      if is_nullish current then Ret current
      else
        child ← get_member current part;
        if is_undefined child then Ret current
        else child ← removeProp_loop child rest; Ret (write_back current part child)
  end.

(** [removeProp] walks the result of its transformers and returns
    [obj].  When no transformer applies to the path that result is
    [obj] itself.  When one applies, whether the walked value shares
    structure with [obj] is not visible in a snapshot, and the call is
    left unmodelled (after the transformers have run, so that a
    transformer that throws is seen to throw). *)
Definition removeProp (cfg : PropsConfig) (obj path : value) : outcome value :=
  if is_nullish obj then Ret obj
  else
    _ ← validateInput obj path;
    _ ← validateSecurityTerms (path_text path);
    _ ← applyTransformers obj (path_text path) (tr_removeProp (transformers cfg));
    if fires (path_text path) (tr_removeProp (transformers cfg)) then Unmodelled
    else removeProp_loop obj (JsString.split "." (path_text path)).

End Props.
Export Props.

(* ================================================================== *)
(** * src/utils/debug.ts: what the loggers write *)
(* ================================================================== *)

Module Debug.

Inductive LogOperation :=
| OpGet | OpSet | OpHas | OpRemove | OpTransform | OpError | OpWarn | OpFallback.

Inductive LogModule := ModProps | ModTemplate.

(** [interface DebugData]; an absent [value] is [undefined]. *)
Record DebugData := {
  operation : LogOperation;
  path : string;
  value_of : value;
  error : option string;
  module : LogModule
}.

(** [interface DebugConfig]: the switch.  Colours and the formatter
    only shape the printed text. *)
Record DebugConfig := { enabled : bool }.

(** A line on the console, kept as the data it is formatted from. *)
Inductive console_line :=
| console_debug (data : DebugData)
| console_warn (data : DebugData).

(** A computation that writes console lines as it goes and ends in an
    outcome.  In the template engine only the lines written through
    the template module's logger are recorded. *)
Record Run (A : Type) := MkRun { exec : list console_line -> outcome A * list console_line }.
Arguments MkRun {A} exec.
Arguments exec {A} r out.

#[global] Instance run_ret : MRet Run := fun A a => MkRun (fun out => (Ret a, out)).
#[global] Instance run_bind : MBind Run := fun A B f m =>
  MkRun (fun out =>
    match exec m out with
    | (Ret a, out') => exec (f a) out'
    | (Throw e, out') => (Throw e, out')
    | (Unmodelled, out') => (Unmodelled, out')
    end).

Definition lift {A} (m : outcome A) : Run A := MkRun (fun out => (m, out)).
Definition throw {A} (e : js_error) : Run A := lift (Throw e).
Definition write (line : console_line) : Run unit :=
  MkRun (fun out => (Ret tt, (out ++ [line])%list)).

(** [try { body } catch (error) { handler(error); throw error; }] *)
Definition rethrowing {A} (body : Run A) (handler : js_error -> Run unit) : Run A :=
  MkRun (fun out =>
    match exec body out with
    | (Throw e, out') =>
        match exec (handler e) out' with
        | (Ret _, out'') => (Throw e, out'')
        | (Throw e', out'') => (Throw e', out'')
        | (Unmodelled, out'') => (Unmodelled, out'')
        end
    | r => r
    end).

Section Logger.
Variable currentConfig : DebugConfig.
Variable owner : LogModule.

(** [debugLog(data)] *)
Definition debugLog (data : DebugData) : Run unit :=
  if negb (enabled currentConfig) then mret tt
  else write (console_debug data).

(** [createModuleLogger(module).log] *)
Definition log (operation : LogOperation) (path : string) (v : value) : Run unit :=
  debugLog {| operation := operation; path := path; value_of := v;
              error := None; module := owner |}.

(** [createModuleLogger(module).error] *)
Definition log_error (path : string) (message : string) : Run unit :=
  debugLog {| operation := OpError; path := path; value_of := VUndefined;
              error := Some message; module := owner |}.

(** [createModuleLogger(module).warn] *)
Definition warn (path : string) (message : string) : Run unit :=
  if negb (enabled currentConfig) then mret tt
  else write (console_warn {| operation := OpWarn; path := path;
                              value_of := VStr message; error := None;
                              module := owner |}).
End Logger.


End Debug.

(* ================================================================== *)
(** * src/props.ts with its logger *)
(* ================================================================== *)

(** The four functions once more, this time with what they report to
    [propsLogger] and with the [try]/[catch] around each body.  The
    path is a string, as it is typed.  An error that reaches a [catch]
    is an [Error] object here, so it is always logged. *)
Module Logged.

Section Logged.
Variable currentConfig : Debug.DebugConfig.
Variable globalConfig : PropsConfig.

(** [const propsLogger = createModuleLogger("props")] *)
Definition propsLogger_log := Debug.log currentConfig Debug.ModProps.
Definition propsLogger_error := Debug.log_error currentConfig Debug.ModProps.

(** [try { body } catch (error) {
      if (error instanceof Error) propsLogger.error(path, error.message);
      throw error; }] *)
Definition logging_errors {A} (path : string) (body : Debug.Run A) : Debug.Run A :=
  Debug.rethrowing body (fun error => propsLogger_error path (err_message error)).

Definition getProp (obj : value) (path : string) (defaultValue : value)
    : Debug.Run value :=
  logging_errors path
    (_ ← Debug.lift (validateInput obj (VStr path));
     _ ← Debug.lift (validateSecurityTerms path);
     found ← Debug.lift (getProp_loop obj (JsString.split "." path));
     let missing :=
       let fallbackValue := nullish_coalesce defaultValue (fallback globalConfig) in
       _ ← propsLogger_log Debug.OpFallback path fallbackValue;
       mret fallbackValue in
     match found with
     | None => missing
     | Some current =>
         if is_undefined current then missing
         else
           current ← Debug.lift (applyTransformers current path
                                   (tr_getProp (transformers globalConfig)));
           _ ← propsLogger_log Debug.OpGet path current;
           mret current
     end).

Definition setProp (obj : value) (path : string) (v : value) : Debug.Run value :=
  logging_errors path
    (_ ← Debug.lift (validateInput obj (VStr path));
     _ ← Debug.lift (validateSecurityTerms path);
     transformedValue ← Debug.lift (applyTransformers v path
                                      (tr_setProp (transformers globalConfig)));
     _ ← propsLogger_log Debug.OpSet path transformedValue;
     Debug.lift (setProp_loop obj (JsString.split "." path) transformedValue)).

Definition hasProp (obj : value) (path : string) : Debug.Run bool :=
  logging_errors path
    (_ ← Debug.lift (validateInput obj (VStr path));
     _ ← Debug.lift (validateSecurityTerms path);
     _ ← propsLogger_log Debug.OpHas path VUndefined;
     Debug.lift (hasProp_loop obj (JsString.split "." path))).

Definition removeProp (obj : value) (path : string) : Debug.Run value :=
  if is_nullish obj then mret obj
  else
    logging_errors path
      (_ ← Debug.lift (validateInput obj (VStr path));
       _ ← Debug.lift (validateSecurityTerms path);
       _ ← Debug.lift (applyTransformers obj path
                         (tr_removeProp (transformers globalConfig)));
       _ ← propsLogger_log Debug.OpRemove path VUndefined;
       if fires path (tr_removeProp (transformers globalConfig))
       then Debug.lift Unmodelled
       else Debug.lift (removeProp_loop obj (JsString.split "." path))).

End Logged.
End Logged.

(* ================================================================== *)
(** * [String(value)] *)
(* ================================================================== *)

Fixpoint join (sep : string) (l : list string) : string :=
  match l with
  | [] => EmptyString
  | [s] => s
  | s :: rest => s +:+ sep +:+ join sep rest
  end.

(** Integers print in decimal; an array prints its elements joined by
    commas, holes, [null] and [undefined] printing as nothing. *)
Fixpoint to_string (v : value) : string :=
  match v with
  | VUndefined => "undefined"
  | VNull => "null"
  | VBool true => "true"
  | VBool false => "false"
  | VNum n => pretty n
  | VStr s => s
  | VObj _ => "[object Object]"
  | VArr elems _ =>
      join ","
        ((fix each (l : list (option value)) : list string :=
            match l with
            | [] => []
            | Some e :: l' => (if is_nullish e then EmptyString else to_string e) :: each l'
            | None :: l' => EmptyString :: each l'
            end) elems)
  end.

(* ================================================================== *)
(** * src/template.ts, brace style *)
(* ================================================================== *)

(** The pattern [/\{\{([^}]+)\}\}/]: two opening braces, the longest
    non-empty run of characters other than a closing brace, two closing
    braces.  The run cannot be shortened to make a match succeed, since
    what follows a shorter run is not a closing brace. *)
Module Pattern.

Fixpoint run (s : string) : string * string :=
  match s with
  | String c s' =>
      if decide (c = "}"%char) then (EmptyString, s)
      else let '(r, rest) := run s' in (String c r, rest)
  | EmptyString => (EmptyString, EmptyString)
  end.

(** A match starting at the first character: the matched text and the
    captured group. *)
Definition match_here (s : string) : option (string * string) :=
  match s with
  | String "{" (String "{" s') =>
      let '(body, rest) := run s' in
      if JsString.is_empty body then None
      else match rest with
           | String "}" (String "}" _) => Some ("{{" +:+ body +:+ "}}", body)
           | _ => None
           end
  | _ => None
  end.

(** [skip] characters of [s] belong to the match found last. *)
Fixpoint match_all_from (s : string) (skip : nat) : list string :=
  match s with
  | EmptyString => []
  | String _ s' =>
      match skip with
      | S k => match_all_from s' k
      | O =>
          match match_here s with
          | Some (m, _) => m :: match_all_from s' (String.length m - 1)
          | None => match_all_from s' O
          end
      end
  end.

(** [template.match(/\{\{([^}]+)\}\}/g) || []] *)
Definition match_all (s : string) : list string := match_all_from s O.

(** [expr.match(/\{\{([^}]+)\}\}/)]: the leftmost match. *)
Fixpoint first_match (s : string) : option (string * string) :=
  match match_here s with
  | Some r => Some r
  | None =>
      match s with
      | EmptyString => None
      | String _ s' => first_match s'
      end
  end.

End Pattern.

Module Template.
Import Debug.

(** [enum TemplateErrorType] *)
Definition EMPTY_PATH : string := "Empty path in template".
Definition INVALID_OBJECT : string := "Template data must be an object".
Definition template_error (message : string) : js_error :=
  mkError ClsTemplateError message.

(** A transform is a function object: [fn_ref] stands for its identity
    (what [===] compares) and [fn_call] for its behaviour once awaited. *)
Record TransformFn := {
  fn_ref : N;
  fn_call : value -> list value -> outcome value
}.

Definition same_function (f g : TransformFn) : bool :=
  bool_decide (fn_ref f = fn_ref g).

(** The private fields of [class TemplateEngine]. *)
Record TemplateEngine := {
  transformers : gmap string TransformFn;
  defaultTransformer : TransformFn;
  defaultValue : string
}.

(** [(value) => value] *)
Definition identity : TransformFn :=
  {| fn_ref := 0; fn_call := fun v _ => Ret v |}.

Definition initialEngine : TemplateEngine :=
  {| transformers := ∅; defaultTransformer := identity; defaultValue := EmptyString |}.

Record UseConfig := {
  cfg_transformers : gmap string TransformFn;
  cfg_default : option TransformFn;
  cfg_fallback : option string
}.

Definition use (this : TemplateEngine) (config : UseConfig) : TemplateEngine :=
  {| transformers := cfg_transformers config;
     defaultTransformer := default (defaultTransformer this) (cfg_default config);
     defaultValue := default (defaultValue this) (cfg_fallback config) |}.

Definition quote : string := String "034" EmptyString.
Definition apostrophe : string := String "039" EmptyString.

(** [Transformador desconhecido: ${transformName}, usando transformador padrão] *)
Definition unknown_transformer (transformName : string) : string :=
  "Transformador desconhecido: " +:+ transformName
    +:+ ", usando transformador padr" +:+ String "227" "o".

Section Engine.
Variable currentConfig : DebugConfig.
Variable globalConfig : PropsConfig.
Variable this : TemplateEngine.

(** [const templateLogger = createModuleLogger("template")] *)
Definition templateLogger_log := Debug.log currentConfig ModTemplate.
Definition templateLogger_error := Debug.log_error currentConfig ModTemplate.
Definition templateLogger_warn := Debug.warn currentConfig ModTemplate.

(** The body of the [map] in [processArgs]. *)
Definition processArg (arg : string) (data : value) : outcome value :=
  let trimmedArg := JsString.trim arg in
  if (JsString.startsWith trimmedArg quote && JsString.endsWith trimmedArg quote)
     || (JsString.startsWith trimmedArg apostrophe
         && JsString.endsWith trimmedArg apostrophe)
  then Ret (VStr (JsString.slice_1_m1 trimmedArg))
  else
    match JsNumber.ofString trimmedArg with
    | JsNumber.Int n => Ret (VNum n)
    | JsNumber.Other => Unmodelled
    | JsNumber.NaN =>
        if decide (trimmedArg = "true") then Ret (VBool true)
        else if decide (trimmedArg = "false") then Ret (VBool false)
        else if decide (trimmedArg = "null") then Ret VNull
        else if decide (trimmedArg = "undefined") then Ret VUndefined
        else
          match getProp globalConfig data (VStr trimmedArg) VUndefined with
          | Ret contextValue =>
              if is_undefined contextValue then Ret (VStr trimmedArg)
              else Ret contextValue
          | Throw _ => Ret (VStr trimmedArg)
          | Unmodelled => Unmodelled
          end
    end.

Fixpoint processArgs (args : list string) (data : value) : outcome (list value) :=
  match args with
  | [] => Ret []
  | arg :: rest =>
      v ← processArg arg data;
      vs ← processArgs rest data;
      Ret (v :: vs)
  end.

Definition applyTransform (v : value) (transformExpr : string) (data : value)
    : Run value :=
  let colonIndex := JsString.indexOf transformExpr ":" in
  let transformName :=
    match colonIndex with
    | None => transformExpr
    | Some i => JsString.trim (JsString.take i transformExpr)
    end in
  let argsStr :=
    match colonIndex with
    | None => EmptyString
    | Some i => JsString.trim (JsString.drop (i + 1) transformExpr)
    end in
  if JsString.is_empty transformName then
    _ ← templateLogger_error "applyTransform" "Transform name is required";
    throw (mkError ClsError "Transform name is required")
  else
    let transform :=
      default (defaultTransformer this) (transformers this !! transformName) in
    _ ← (if same_function transform (defaultTransformer this)
         then templateLogger_warn "applyTransform" (unknown_transformer transformName)
         else mret tt);
    let args :=
      if JsString.is_empty argsStr then []
      else JsString.trim <$> JsString.split "," argsStr in
    processedArgs ← lift (processArgs args data);
    rethrowing
      (result ← lift (fn_call transform v processedArgs);
       _ ← templateLogger_log OpTransform transformName result;
       mret result)
      (fun error => templateLogger_error transformName (err_message error)).

Fixpoint check_transformers (names : list string) : outcome unit :=
  match names with
  | [] => Ret tt
  | transformer :: rest =>
      _ ← validateSecurityTerms transformer; check_transformers rest
  end.

Definition extractTransformers (transformStr : string)
    : outcome (string * list string) :=
  let parts := JsString.trim <$> JsString.split "|" transformStr in
  let path := hd EmptyString parts in
  let transformers := tail parts in
  _ ← validateSecurityTerms path;
  _ ← check_transformers transformers;
  Ret (path, transformers).

(** [validateTemplateContext] with [operation: "template"]; a truthy
    value whose [typeof] is ["object"] is an object or an array. *)
Definition validateTemplateInput (data : value) (path : string) : outcome unit :=
  if negb (is_container data) then Throw (template_error INVALID_OBJECT)
  else if JsString.is_empty path || JsString.is_empty (JsString.trim path)
  then Throw (template_error EMPTY_PATH)
  else
    _ ← validateSecurityTerms path;
    if JsString.includes path "|" then
      let basePath := hd EmptyString (JsString.split "|" path) in
      if JsString.is_empty (JsString.trim basePath)
      then Throw (template_error EMPTY_PATH)
      else validateSecurityTerms basePath
    else Ret tt.

Definition extractTemplateContent (expr : string) : string :=
  match Pattern.first_match expr with
  | Some (_, group) => JsString.trim group
  | None => EmptyString
  end.

(** The [for] loop of [processTemplateMatch]: the value runs through
    the transformers from left to right. *)
Fixpoint transform_loop (v : value) (transformers : list string) (data : value)
    : Run value :=
  match transformers with
  | [] => mret v
  | transformer :: rest =>
      v ← rethrowing (applyTransform v transformer data)
            (fun error => templateLogger_error transformer (err_message error));
      transform_loop v rest data
  end.

Definition processTemplateMatch (matched : string) (data : value) : Run string :=
  let content := extractTemplateContent matched in
  if JsString.is_empty content then
    _ ← templateLogger_error "processTemplateMatch" EMPTY_PATH;
    throw (template_error EMPTY_PATH)
  else
    extracted ← lift (extractTransformers content);
    let '(path, transformers) := extracted in
    _ ← lift (validateTemplateInput data path);
    v ← lift (getProp globalConfig data (VStr path) VUndefined);
    v ← (if is_undefined v then
           _ ← templateLogger_log OpGet path (VStr "undefined");
           _ ← templateLogger_log OpFallback path (VStr (defaultValue this));
           mret (VStr (defaultValue this))
         else
           _ ← templateLogger_log OpGet path v;
           mret v);
    v ← transform_loop v transformers data;
    mret (to_string v).

(** The [for] loop of [processTemplate]. *)
Fixpoint replace_loop (result : string) (matches : list string) (data : value)
    : Run string :=
  match matches with
  | [] => mret result
  | matched :: rest =>
      result ← rethrowing
                 (v ← processTemplateMatch matched data;
                  mret (JsString.replace result matched v))
                 (fun error => templateLogger_error "processTemplate" (err_message error));
      replace_loop result rest data
  end.

Definition processTemplate (template : string) (data : value) : Run string :=
  _ ← templateLogger_log OpTransform "start" (VStr template);
  let matches := Pattern.match_all template in
  result ← replace_loop template matches data;
  _ ← templateLogger_log OpTransform "complete" (VStr result);
  mret result.

(** [template(stringsOrTemplate)(data)] for a string argument. *)
Definition template (stringsOrTemplate : string) (data : value) : Run string :=
  processTemplate stringsOrTemplate data.

End Engine.

(** A render from an empty console: the outcome and what was written. *)
Definition render (currentConfig : DebugConfig) (globalConfig : PropsConfig)
    (engine : TemplateEngine) (source : string) (data : value)
    : outcome string * list console_line :=
  exec (template currentConfig globalConfig engine source data) [].

(** The transforms of the test suite that the specification names:
    [add: async (v, amount) => v + amount] and
    [multiply: async (v, factor) => v * factor], on numbers and, for
    [+], on strings; other operand types are not modelled. *)
Definition add : TransformFn :=
  {| fn_ref := 1;
     fn_call := fun v args =>
       match v, args with
       | VNum a, VNum b :: _ => Ret (VNum (a + b))
       | VStr a, VStr b :: _ => Ret (VStr (a +:+ b))
       | VStr a, VNum b :: _ => Ret (VStr (a +:+ pretty b))
       | VNum a, VStr b :: _ => Ret (VStr (pretty a +:+ b))
       | _, _ => Unmodelled
       end |}.

Definition multiply : TransformFn :=
  {| fn_ref := 2;
     fn_call := fun v args =>
       match v, args with
       | VNum a, VNum b :: _ => Ret (VNum (a * b))
       | _, _ => Unmodelled
       end |}.

End Template.

(* ================================================================== *)
(** * src/template.ts, tagged style *)
(* ================================================================== *)

(** An own property of an object, or a named property of an array. *)
Definition has_own (v : value) (name : string) : bool :=
  match v with
  | VObj props => bool_decide (is_Some (props !! name))
  | VArr _ extra => bool_decide (is_Some (extra !! name))
  | _ => false
  end.

(** The conversion of a value to a string as the language does it for
    data.  An object or an array is converted through its [toString]
    member: one stored in the data is not a function, and the
    conversion fails.  An array without one prints through [join], or
    as [[object Array]] when the data stores something under that
    name; its elements are converted in turn, holes, [null] and
    [undefined] printing as nothing. *)
Fixpoint ToString (v : value) : outcome string :=
  match v with
  | VObj props =>
      if bool_decide (is_Some (props !! "toString"))
      then Throw (type_error "Cannot convert object to primitive value")
      else Ret "[object Object]"
  | VArr elems extra =>
      if bool_decide (is_Some (extra !! "toString"))
      then Throw (type_error "Cannot convert object to primitive value")
      else if bool_decide (is_Some (extra !! "join")) then Ret "[object Array]"
      else
        texts ← (fix each (l : list (option value)) : outcome (list string) :=
                   match l with
                   | [] => Ret []
                   | Some e :: l' =>
                       t ← (if is_nullish e then Ret EmptyString else ToString e);
                       ts ← each l';
                       Ret (t :: ts)
                   | None :: l' => ts ← each l'; Ret (EmptyString :: ts)
                   end) elems;
        Ret (join "," texts)
  | _ => Ret (to_string v)
  end.

Module Tagged.

(** [TemplateErrorType.FUNCTION_ERROR] *)
Definition FUNCTION_ERROR : string := "Error evaluating function".

(** A key of a tagged template: a function of the data, or any other
    value, a string being read as a path with its transforms. *)
Inductive TemplateKey :=
| KeyFunction (f : value -> outcome value)
| KeyValue (v : value).

(** [try { body } catch (error) { handler(error) }] *)
Definition catching {A} (body : Debug.Run A) (handler : js_error -> Debug.Run A)
    : Debug.Run A :=
  Debug.MkRun (fun out =>
    match Debug.exec body out with
    | (Throw e, out') => Debug.exec (handler e) out'
    | r => r
    end).

(** [value?.toString() || ""]: a [toString] stored in the data is
    called and is not a function. *)
Definition text_of (v : value) : outcome string :=
  if is_nullish v then Ret EmptyString
  else if has_own v "toString"
  then Throw (type_error "value.toString is not a function")
  else ToString v.

Section Engine.
Variable currentConfig : Debug.DebugConfig.
Variable globalConfig : PropsConfig.
Variable this : Template.TemplateEngine.

(** The body of [if (i < keys.length)], up to the value of the key. *)
Definition key_value (key : TemplateKey) (data : value) : Debug.Run value :=
  match key with
  | KeyFunction f =>
      catching
        (v ← Debug.lift (f data);
         _ ← Template.templateLogger_log currentConfig Debug.OpTransform "function" v;
         mret v)
        (fun error =>
           let errorMessage := err_message error in
           _ ← Template.templateLogger_error currentConfig "function" errorMessage;
           Debug.throw (mkError ClsError (FUNCTION_ERROR +:+ ": " +:+ errorMessage)))
  | KeyValue (VStr key) =>
      if JsString.includes key "|" then
        extracted ← Debug.lift (Template.extractTransformers key);
        let '(path, transformers) := extracted in
        _ ← Debug.lift (Template.validateTemplateInput data path);
        v ← Debug.lift (getProp globalConfig data (VStr path) VUndefined);
        let v := nullish_coalesce v (VStr EmptyString) in
        _ ← Template.templateLogger_log currentConfig Debug.OpGet path v;
        match transformers with
        | [] => mret v
        | _ :: _ =>
            let transformStr := join "|" transformers in
            Template.applyTransform currentConfig globalConfig this v transformStr data
        end
      else
        _ ← Debug.lift (Template.validateTemplateInput data key);
        v ← Debug.lift (getProp globalConfig data (VStr key) VUndefined);
        let v := nullish_coalesce v (VStr EmptyString) in
        _ ← Template.templateLogger_log currentConfig Debug.OpGet key v;
        mret v
  | KeyValue v =>
      _ ← Template.templateLogger_log currentConfig Debug.OpTransform "literal" v;
      mret v
  end.

(** The [for] loop of [processTaggedTemplate] from some index on:
    [strings] and [keys] are what is left of the two arrays. *)
Fixpoint tagged_loop (result : string) (strings : list string) (keys : list TemplateKey)
    (data : value) : Debug.Run string :=
  match strings with
  | [] => mret result
  | s :: strings' =>
      let result := result +:+ s in
      match keys with
      | [] => tagged_loop result strings' [] data
      | key :: keys' =>
          v ← key_value key data;
          text ← Debug.lift (text_of v);
          tagged_loop (result +:+ text) strings' keys' data
      end
  end.

Definition processTaggedTemplate (strings : list string) (keys : list TemplateKey)
    (data : value) : Debug.Run string :=
  _ ← Template.templateLogger_log currentConfig Debug.OpTransform "start" (VStr "tagged");
  result ← tagged_loop EmptyString strings keys data;
  _ ← Template.templateLogger_log currentConfig Debug.OpTransform "complete" (VStr result);
  mret result.

(** [template(strings, ...keys)(data)] for a strings array. *)
Definition template (strings : list string) (keys : list TemplateKey) (data : value)
    : Debug.Run string :=
  processTaggedTemplate strings keys data.

End Engine.
End Tagged.

(* ================================================================== *)
(** * Vocabulary of the statements *)
(* ================================================================== *)

(** A path that [validateInput] accepts as text: a string that is not
    empty and not blank. *)
Definition valid_path (path : value) : bool :=
  match path with
  | VStr p => negb (JsString.is_empty p || JsString.is_empty (JsString.trim p))
  | _ => false
  end.

(** A path one of whose segments is a reserved identifier. *)
Definition unsafe_path (path : value) : bool :=
  match path with
  | VStr p => existsb (fun part => bool_decide (part ∈ securityTerms)) (JsString.split "." p)
  | _ => false
  end.

(** What a thrown error is recognised by: the tests match the text of
    the message. *)
Definition is_security_violation (e : js_error) : bool :=
  JsString.startsWith (err_message e) SECURITY_VIOLATION.

(** [child] sits in [current] under the name [k], as a property of an
    object, an element of an array or a named property of an array. *)
Inductive holds (child : value) (k : string) : value -> Prop :=
| holds_obj props : props !! k = Some child -> holds child k (VObj props)
| holds_elem elems extra i :
    JsNumber.array_index k = Some i -> elems !! i = Some (Some child) ->
    holds child k (VArr elems extra)
| holds_extra elems extra :
    JsNumber.array_index k = None -> k <> "length" -> extra !! k = Some child ->
    holds child k (VArr elems extra).



(** What the loop of [getProp] arrives at, [undefined] standing for both
    ways of finding nothing. *)
Definition lookup_path (current : value) (parts : list string) : value :=
  match getProp_loop current parts with
  | Ret (Some v) => v
  | _ => VUndefined
  end.

(** The last segment of [parts] is taken out of an array by [splice]:
    the value reached before it is an array and the segment reads as an
    integer. *)
Fixpoint removes_from_array (current : value) (parts : list string) : bool :=
  match parts with
  | [] => false
  | [lastPart] =>
      isArray current && bool_decide (is_Some (JsNumber.parseInt lastPart))
  | part :: rest =>
      match get_member current part with
      | Ret child => removes_from_array child rest
      | _ => false
      end
  end.

(** A replacement text without [$] stands for itself. *)
Fixpoint plain_replacement (repl : string) : bool :=
  match repl with
  | EmptyString => true
  | String c r => negb (bool_decide (c = "$"%char)) && plain_replacement r
  end.

(** The character [c] does not occur in [s]. *)
Fixpoint avoids (c : ascii) (s : string) : bool :=
  match s with
  | EmptyString => true
  | String a s' => negb (bool_decide (a = c)) && avoids c s'
  end.





(** A computation that leaves the console as it found it. *)
Definition quiet {A} (m : Debug.Run A) : Prop :=
  forall out, (Debug.exec m out).2 = out.

(** A computation that only writes: it returns, whatever the console. *)
Definition writer (m : Debug.Run unit) : Prop :=
  forall out, (Debug.exec m out).1 = Ret tt.

(** Two computations with the same outcome, whatever the consoles they
    start from. *)
Definition alike {A} (m1 m2 : Debug.Run A) : Prop :=
  forall out1 out2, (Debug.exec m1 out1).1 = (Debug.exec m2 out2).1.

(** An expression with the text that follows it in a template, and
    the string the expression evaluates to. *)
Record Piece := { piece_body : string; piece_value : string; piece_text : string }.

Definition expression (body : string) : string := "{{" +:+ body +:+ "}}".

(** The template made of the pieces, and the same text with each
    expression replaced by its value. *)
Fixpoint template_text (pieces : list Piece) : string :=
  match pieces with
  | [] => EmptyString
  | p :: rest => expression (piece_body p) +:+ piece_text p +:+ template_text rest
  end.

Fixpoint rendered_text (pieces : list Piece) : string :=
  match pieces with
  | [] => EmptyString
  | p :: rest => piece_value p +:+ piece_text p +:+ rendered_text rest
  end.

(** The expression of the piece evaluates to the value of the piece
    on [data]; the value and the text after the expression have no
    opening brace, and the value has no dollar sign. *)
Definition evaluates (dbg : Debug.DebugConfig) (cfg : PropsConfig)
    (engine : Template.TemplateEngine) (data : value) (p : Piece) : Prop :=
  avoids "}" (piece_body p) = true /\
  (Debug.exec (Template.processTemplateMatch dbg cfg engine (expression (piece_body p)) data)
     []).1 = Ret (piece_value p) /\
  avoids "{" (piece_value p) = true /\
  plain_replacement (piece_value p) = true /\
  avoids "{" (piece_text p) = true.

(** ** Data of the examples *)

Definition array_of (l : list value) : value := VArr (Some <$> l) ∅.

(** [{ arr: [1, 2, 3] }] *)
Definition with_arr : value :=
  VObj {[ "arr" := array_of [VNum 1; VNum 2; VNum 3] ]}.

(** [{ a: null }] and [{ a: 5 }] *)
Definition with_null : value := VObj {[ "a" := VNull ]}.
Definition with_scalar : value := VObj {[ "a" := VNum 5 ]}.

(** [{ x: 3 }] and [{ x: "v" }] *)
Definition with_x_3 : value := VObj {[ "x" := VNum 3 ]}.
Definition with_x_v : value := VObj {[ "x" := VStr "v" ]}.

(** [{ a: "{{b}}", b: "Z" }] *)
Definition with_braces : value := VObj {[ "a" := VStr "{{b}}"; "b" := VStr "Z" ]}.

(** [{ a: undefined }] and [{ a: { b: 1 } }] *)
Definition with_undefined : value := VObj {[ "a" := VUndefined ]}.
Definition with_a_b : value := VObj {[ "a" := VObj {[ "b" := VNum 1 ]} ]}.

(** [{ arr: [2, 3] }], [{ arr: [3] }], [{ arr: [9, 2, 3] }] and
    [{ arr: [1, 2, 3, <2 empty items>, 9] }] *)
Definition with_arr_2_3 : value := VObj {[ "arr" := array_of [VNum 2; VNum 3] ]}.
Definition with_arr_3 : value := VObj {[ "arr" := array_of [VNum 3] ]}.

(** [props.use({ fallback: "N/A" })] on the initial configuration. *)
Definition fallback_NA : PropsConfig :=
  use initialConfig {| new_fallback := Some (VStr "N/A"); new_transformers := None |}.

Definition debug_on : Debug.DebugConfig := {| Debug.enabled := true |}.
Definition debug_off : Debug.DebugConfig := {| Debug.enabled := false |}.

(** [template.use({ transformers: { add, multiply } })] on a new engine. *)
Definition chain_engine : Template.TemplateEngine :=
  Template.use Template.initialEngine
    {| Template.cfg_transformers :=
         {[ "add" := Template.add; "multiply" := Template.multiply ]};
       Template.cfg_default := None;
       Template.cfg_fallback := None |}.

(** The [get] lines among the lines written: one per evaluation of a
    template expression. *)
Definition get_lines (out : list Debug.console_line) : list Debug.DebugData :=
  omap (fun line =>
          match line with
          | Debug.console_debug d =>
              match Debug.operation d with Debug.OpGet => Some d | _ => None end
          | _ => None
          end) out.



(** [{ surname: " Ever " }] *)
Definition with_surname : value := VObj {[ "surname" := VStr " Ever " ]}.

(** [value => value.trim()], the transformer of the examples: [trim]
    is a method of strings only. *)
Definition trim_transformer : Transformer := fun v =>
  match v with
  | VStr s => Ret (VStr (JsString.trim s))
  | VUndefined | VNull => Throw (type_error "Cannot read properties of null or undefined")
  | _ => Throw (type_error "value.trim is not a function")
  end.

(** [props.use({ transformers: { getProp: { name: value => value.trim() } } })]
    on the initial configuration. *)
Definition trims_name : PropsConfig :=
  use initialConfig
    {| new_fallback := None;
       new_transformers :=
         Some {| tr_getProp := [("name", trim_transformer)];
                 tr_setProp := []; tr_hasProp := []; tr_removeProp := [] |} |}.

(** [() => { throw new Error("Function error"); }] *)
Definition failing_function : value -> outcome value :=
  fun _ => Throw (mkError ClsError "Function error").

(** The pieces of [{{x}}, {{ x }}!] on [{ x: "v" }]. *)
Definition two_pieces : list Piece :=
  [ {| piece_body := "x"; piece_value := "v"; piece_text := ", " |};
    {| piece_body := " x "; piece_value := "v"; piece_text := "!" |} ].

(* ================================================================== *)
(** * Properties *)
(* ================================================================== *)

(** ** Outcomes and strings *)

Lemma bind_ret_inv {A B} (m : outcome A) (f : A -> outcome B) b :
  m ≫= f = Ret b -> exists a, m = Ret a /\ f a = Ret b.
Proof. destruct m; simpl; [eauto|discriminate..]. Qed.

Lemma unit_outcome (m : outcome unit) a : m = Ret a -> m = Ret tt.
Proof. by destruct a. Qed.

Ltac bind_step := cbn [mbind outcome_bind mret outcome_ret].

Lemma split_nonempty sep s : JsString.split sep s <> [].
Proof.
  destruct s as [|c s]; simpl; [discriminate|].
  case_decide; [discriminate|].
  destruct (JsString.split sep s); discriminate.
Qed.


Lemma substitution_plain matched before after repl :
  plain_replacement repl = true ->
  JsString.substitution matched before after repl = repl.
Proof.
  induction repl as [|c r IH]; simpl; [done|].
  intros [Hc%negb_true_iff%bool_decide_eq_false Hr]%andb_true_iff.
  rewrite decide_False by done. by rewrite IH.
Qed.

(** [indexOf] finds the leftmost occurrence. *)
Lemma indexOf_first s p : forall i,
  JsString.indexOf s p = Some i ->
  JsString.startsWith (JsString.drop i s) p = true /\
  forall j, (j < i)%nat -> JsString.startsWith (JsString.drop j s) p = false.
Proof.
  induction s as [|c s IH]; intros i.
  - cbn [JsString.indexOf]. destruct (JsString.startsWith "" p) eqn:Hs; [|done].
    intros [= <-]. split; [done|]. lia.
  - cbn [JsString.indexOf]. destruct (JsString.startsWith (String c s) p) eqn:Hs.
    + intros [= <-]. split; [done|]. lia.
    + destruct (JsString.indexOf s p) as [k|] eqn:Hk; [|done].
      intros [= <-]. destruct (IH k eq_refl) as [H1 H2]. split; [done|].
      intros [|j] Hj; [done|]. apply H2. lia.
Qed.

(** ** Reading and writing one value *)

Lemma container_not_nullish v : is_container v = true -> is_nullish v = false.
Proof. by destruct v. Qed.

Lemma set_member_container cur k v cur' :
  set_member cur k v = Ret cur' -> is_container cur = true /\ is_container cur' = true.
Proof.
  destruct cur; simpl; try discriminate.
  - intros [= <-]; done.
  - destruct (JsNumber.array_index k).
    + case_decide; intros [= <-]; done.
    + case_decide; [|intros [= <-]; done].
      destruct v; try discriminate. case_decide; [|discriminate]. intros [= <-]; done.
Qed.

Lemma get_set_member cur k v cur' :
  set_member cur k v = Ret cur' -> get_member cur' k = Ret v.
Proof.
  destruct cur; simpl; try discriminate.
  - intros [= <-]; simpl. by rewrite lookup_insert_eq.
  - destruct (JsNumber.array_index k) as [i|] eqn:Hk.
    + case_decide; intros [= <-]; simpl; rewrite Hk.
      * by rewrite list_lookup_insert_eq.
      * rewrite lookup_app_r by lia.
        rewrite lookup_app_r by (rewrite length_replicate; lia).
        rewrite length_replicate.
        replace (i - length elems - (i - length elems))%nat with 0%nat by lia. done.
    + case_decide as Hl.
      * destruct v; try discriminate. case_decide; [|discriminate].
        intros [= <-]; simpl. rewrite Hk. rewrite decide_True by done.
        rewrite length_resize. f_equal. f_equal. lia.
      * intros [= <-]; simpl. rewrite Hk. rewrite decide_False by done.
        by rewrite lookup_insert_eq.
Qed.

Lemma has_set_member cur k v cur' :
  set_member cur k v = Ret cur' -> has_member cur' k = Ret true.
Proof.
  destruct cur; simpl; try discriminate.
  - intros [= <-]; simpl. by rewrite lookup_insert_eq.
  - destruct (JsNumber.array_index k) as [i|] eqn:Hk.
    + case_decide; intros [= <-]; simpl; rewrite Hk.
      * by rewrite list_lookup_insert_eq.
      * rewrite lookup_app_r by lia.
        rewrite lookup_app_r by (rewrite length_replicate; lia).
        rewrite length_replicate.
        replace (i - length elems - (i - length elems))%nat with 0%nat by lia. done.
    + case_decide as Hl.
      * destruct v; try discriminate. case_decide; [|discriminate].
        intros [= <-]; simpl. rewrite Hk. by rewrite decide_True.
      * intros [= <-]; simpl. rewrite Hk. rewrite decide_False by done.
        by rewrite lookup_insert_eq.
Qed.


(** A container is only ever read out of an object or an array. *)
Lemma get_member_container cur k child :
  get_member cur k = Ret child -> is_container child = true -> holds child k cur.
Proof.
  destruct cur; simpl; try discriminate.
  - intros [= <-]; done.
  - intros [= <-]; done.
  - destruct (JsNumber.array_index k); [|case_decide]; intros [= <-]; try done.
    unfold char_at. destruct (String.get _ _); done.
  - intros [= <-] Hc. constructor. destruct (props !! k); [done|discriminate].
  - destruct (JsNumber.array_index k) as [i|] eqn:Hk.
    + intros [= <-] Hc. eapply holds_elem; [done|].
      destruct (elems !! i) as [[?|]|]; simpl in *; done.
    + case_decide; intros [= <-] Hc; [done|].
      apply holds_extra; [done..|]. destruct (extra !! k); [done|discriminate].
Qed.

Lemma holds_container child k cur : holds child k cur -> is_container cur = true.
Proof. by destruct 1. Qed.


Lemma write_back_container cur k c : is_container (write_back cur k c) = is_container cur.
Proof.
  destruct cur; simpl; try done.
  destruct (JsNumber.array_index k); [done|]. by case_decide.
Qed.

Lemma get_write_back cur k child c :
  holds child k cur -> get_member (write_back cur k c) k = Ret c.
Proof.
  destruct 1 as [props Hp|elems extra i Hk He|elems extra Hk Hl Hx]; simpl.
  - by rewrite lookup_insert_eq.
  - rewrite Hk; simpl; rewrite Hk.
    apply lookup_lt_Some in He. by rewrite list_lookup_insert_eq.
  - rewrite Hk, decide_False by done; simpl. rewrite Hk, decide_False by done.
    by rewrite lookup_insert_eq.
Qed.

Lemma has_write_back cur k child c :
  holds child k cur -> has_member (write_back cur k c) k = Ret true.
Proof.
  destruct 1 as [props Hp|elems extra i Hk He|elems extra Hk Hl Hx]; simpl.
  - by rewrite lookup_insert_eq.
  - rewrite Hk; simpl; rewrite Hk.
    apply lookup_lt_Some in He. by rewrite list_lookup_insert_eq.
  - rewrite Hk, decide_False by done; simpl. rewrite Hk, decide_False by done.
    by rewrite lookup_insert_eq.
Qed.


Lemma write_back_twice cur k c1 c2 :
  write_back (write_back cur k c1) k c2 = write_back cur k c2.
Proof.
  destruct cur; simpl; try done.
  - by rewrite insert_insert_eq.
  - destruct (JsNumber.array_index k) as [i|] eqn:Hk; simpl.
    + rewrite Hk. by rewrite list_insert_insert_eq.
    + case_decide; simpl; rewrite Hk; [by rewrite decide_True|].
      rewrite decide_False by done. by rewrite insert_insert_eq.
Qed.

(** Writing back the child that was read changes nothing. *)
Lemma write_back_unchanged cur k child :
  get_member cur k = Ret child -> is_undefined child = false ->
  write_back cur k child = cur.
Proof.
  destruct cur; simpl; try done.
  - intros [= <-] Hu. destruct (props !! k) eqn:Hp; [|done]. by rewrite insert_id.
  - destruct (JsNumber.array_index k) as [i|] eqn:Hk.
    + intros [= <-] Hu. destruct (elems !! i) as [[e|]|] eqn:He; try done.
      by rewrite list_insert_id.
    + case_decide; [done|]. intros [= <-] Hu.
      destruct (extra !! k) eqn:Hx; [|done]. by rewrite insert_id.
Qed.

Lemma delete_member_shape cur k cur1 :
  delete_member cur k = Ret cur1 ->
  is_container cur1 = is_container cur /\ (is_container cur = false -> cur1 = cur).
Proof.
  destruct cur; simpl; try discriminate; try (intros [= <-]; done).
  - destruct (JsNumber.array_index k); repeat case_decide; try discriminate;
      intros [= <-]; done.
  - destruct (JsNumber.array_index k); repeat case_decide; try discriminate;
      intros [= <-]; done.
Qed.

Lemma delete_member_twice cur k cur1 :
  isArray cur = false ->
  delete_member cur k = Ret cur1 -> delete_member cur1 k = Ret cur1.
Proof.
  destruct cur; simpl; try discriminate; try (intros _ [= <-]; done).
  - destruct (JsNumber.array_index k) as [i|] eqn:Hk; repeat case_decide; try discriminate;
      intros _ [= <-]; simpl; rewrite Hk; try done.
    + by rewrite decide_False.
    + by rewrite decide_False.
  - intros _ [= <-]. simpl. by rewrite delete_delete_eq.
Qed.

(** ** Validation *)

Lemma check_parts_safe parts :
  existsb (fun part => bool_decide (part ∈ securityTerms)) parts = false ->
  check_parts parts = Ret tt.
Proof.
  induction parts as [|part rest IH]; simpl; [done|].
  intros [H1 H2]%orb_false_iff. rewrite H1. auto.
Qed.

Lemma check_parts_unsafe parts :
  existsb (fun part => bool_decide (part ∈ securityTerms)) parts = true ->
  exists part, part ∈ securityTerms /\ part ∈ parts /\
    check_parts parts = Throw (security_violation part).
Proof.
  induction parts as [|part rest IH]; simpl; [done|].
  destruct (bool_decide (part ∈ securityTerms)) eqn:Hp; simpl.
  - intros _. exists part. apply bool_decide_eq_true in Hp. split_and!; [done| |done].
    apply elem_of_cons; by left.
  - intros (p & ? & ? & ?)%IH. exists p. split_and!; [done| |done].
    apply elem_of_cons; by right.
Qed.

Lemma validateInput_ret obj path :
  validateInput obj path = Ret tt <->
  is_nullish obj = false /\ valid_path path = true /\ unsafe_path path = false.
Proof.
  unfold validateInput, valid_path, unsafe_path, validateSecurityTerms.
  destruct (is_nullish obj); [split; [done|intros [? _]; done]|].
  destruct path; try (split; [done|intros (_ & ? & _); done]).
  destruct (_ || _); simpl; [split; [done|intros (_ & ? & _); done]|].
  split.
  - intros H. split_and!; try done.
    destruct (existsb _ _) eqn:He; [|done].
    apply check_parts_unsafe in He as (? & _ & _ & He). congruence.
  - intros (_ & _ & H). by apply check_parts_safe.
Qed.

Lemma validateInput_security obj p :
  validateInput obj (VStr p) = Ret tt -> validateSecurityTerms p = Ret tt.
Proof.
  intros (_ & _ & H)%validateInput_ret. by apply check_parts_safe.
Qed.

Lemma applyTransformers_idle v path entries :
  fires path entries = false -> applyTransformers v path entries = Ret v.
Proof.
  induction entries as [|[name f] rest IH]; simpl; [done|].
  intros [H1 H2]%orb_false_iff. simpl in H1. rewrite H1. auto.
Qed.

(** ** What [setProp] leaves behind *)

Lemma setProp_loop_cons cur part r rest v :
  setProp_loop cur (part :: r :: rest) v =
    child ← get_member cur part;
    current ← (if is_undefined child then set_member cur part (VObj ∅) else Ret cur);
    child ← get_member current part;
    child ← setProp_loop child (r :: rest) v;
    Ret (write_back current part child).
Proof. reflexivity. Qed.

(** Assignment below a value that is not an object or an array fails. *)
Lemma setProp_loop_container parts : forall cur v cur',
  parts <> [] -> setProp_loop cur parts v = Ret cur' -> is_container cur = true.
Proof.
  induction parts as [|part rest IH]; [done|]. intros cur v cur' _.
  destruct rest as [|r rest].
  - simpl. intros H. by apply set_member_container in H as [? _].
  - rewrite setProp_loop_cons.
    intros (child & Hg & (cur1 & Hc & (child1 & Hg1 & (child2 & Hl & _)%bind_ret_inv)
      %bind_ret_inv)%bind_ret_inv)%bind_ret_inv.
    destruct (is_undefined child).
    + by apply set_member_container in Hc as [? _].
    + injection Hc as <-. apply IH in Hl; [|done].
      eapply holds_container, get_member_container; eauto.
Qed.

(** The shape of a successful assignment through an intermediate. *)
Lemma setProp_loop_step cur part r rest v cur' :
  setProp_loop cur (part :: r :: rest) v = Ret cur' ->
  exists cur1 child1 child2,
    (cur1 = cur \/
     set_member cur part (VObj ∅) = Ret cur1 /\ get_member cur part = Ret VUndefined) /\
    holds child1 part cur1 /\
    setProp_loop child1 (r :: rest) v = Ret child2 /\
    cur' = write_back cur1 part child2.
Proof.
  rewrite setProp_loop_cons.
  intros (child & Hg & (cur1 & Hc & (child1 & Hg1 & (child2 & Hl & [= <-])%bind_ret_inv)
    %bind_ret_inv)%bind_ret_inv)%bind_ret_inv.
  exists cur1, child1, child2. split_and!; try done.
  - destruct (is_undefined child) eqn:Hu.
    + right. split; [done|]. by destruct child.
    + injection Hc as <-. by left.
  - apply get_member_container; [done|].
    eapply setProp_loop_container; [|exact Hl]; done.
Qed.

Lemma setProp_loop_get parts : forall cur v cur',
  parts <> [] -> setProp_loop cur parts v = Ret cur' ->
  getProp_loop cur' parts = Ret (Some v).
Proof.
  induction parts as [|part rest IH]; [done|]. intros cur v cur' _.
  destruct rest as [|r rest].
  - simpl. intros H. pose proof (set_member_container _ _ _ _ H) as [_ Hc].
    rewrite (container_not_nullish _ Hc). by rewrite (get_set_member _ _ _ _ H).
  - intros (cur1 & child1 & child2 & _ & Hh & Hl & ->)%setProp_loop_step.
    cbn [getProp_loop].
    rewrite container_not_nullish
      by (rewrite write_back_container; by eapply holds_container).
    rewrite (get_write_back _ _ _ _ Hh). simpl. by eapply IH.
Qed.

Lemma setProp_loop_has parts : forall cur v cur',
  parts <> [] -> setProp_loop cur parts v = Ret cur' ->
  hasProp_loop cur' parts = Ret true.
Proof.
  induction parts as [|part rest IH]; [done|]. intros cur v cur' _.
  destruct rest as [|r rest].
  - simpl. intros H. pose proof (set_member_container _ _ _ _ H) as [_ Hc].
    rewrite (container_not_nullish _ Hc). rewrite (has_set_member _ _ _ _ H). simpl.
    by rewrite (get_set_member _ _ _ _ H).
  - intros (cur1 & child1 & child2 & _ & Hh & Hl & ->)%setProp_loop_step.
    cbn [hasProp_loop].
    rewrite container_not_nullish
      by (rewrite write_back_container; by eapply holds_container).
    rewrite (has_write_back _ _ _ _ Hh). simpl.
    rewrite (get_write_back _ _ _ _ Hh). simpl. by eapply IH.
Qed.

Lemma setProp_ret cfg c p v c' :
  setProp cfg c (VStr p) v = Ret c' ->
  exists w,
    validateInput c (VStr p) = Ret tt /\
    applyTransformers v p (tr_setProp (transformers cfg)) = Ret w /\
    setProp_loop c (JsString.split "." p) w = Ret c' /\
    validateInput c' (VStr p) = Ret tt.
Proof.
  unfold setProp. simpl.
  intros (u & Hv%unit_outcome & (u' & _ & (w & Hw & Hl)%bind_ret_inv)%bind_ret_inv)%bind_ret_inv.
  exists w. split_and!; try done.
  apply validateInput_ret in Hv as (_ & ? & ?). apply validateInput_ret. split_and!; try done.
  apply container_not_nullish.
  destruct (JsString.split "." p) as [|part rest] eqn:Hs; [by apply split_nonempty in Hs|].
  destruct rest as [|r rest].
  - by apply set_member_container in Hl as [_ ?].
  - apply setProp_loop_step in Hl as (cur1 & child1 & child2 & _ & Hh & _ & ->).
    rewrite write_back_container. by eapply holds_container.
Qed.

(** After a successful [setProp], [getProp] on the same path finds the
    value that was stored: the fallback stands in for a stored
    [undefined], and any other value goes through the [getProp]
    transformers. *)
Lemma getProp_after_setProp cfg c p v c' d w :
  setProp cfg c (VStr p) v = Ret c' ->
  applyTransformers v p (tr_setProp (transformers cfg)) = Ret w ->
  getProp cfg c' (VStr p) d =
    if is_undefined w then Ret (nullish_coalesce d (fallback cfg))
    else applyTransformers w p (tr_getProp (transformers cfg)).
Proof.
  intros (w' & Hv & Hw & Hl & Hv')%setProp_ret Hw2.
  assert (w' = w) as -> by congruence.
  unfold getProp. rewrite Hv'. simpl. rewrite (validateInput_security _ _ Hv'). simpl.
  rewrite (setProp_loop_get _ _ _ _ (split_nonempty _ _) Hl). done.
Qed.




(** C8: after a [setProp(c, p, undefined)] that returns, the value
    written being [undefined] itself (no [setProp] transformer is
    registered for the path), [hasProp(c, p)] is [true] and
    [getProp(c, p)] is the configured fallback. *)
Theorem setProp_undefined_has_and_fallback cfg c p c' :
  fires p (tr_setProp (transformers cfg)) = false ->
  setProp cfg c (VStr p) VUndefined = Ret c' ->
  hasProp c' (VStr p) = Ret true /\
  getProp cfg c' (VStr p) VUndefined = Ret (fallback cfg).
Proof.
  intros Hs H. split.
  - apply setProp_ret in H as (w & Hv & Hw & Hl & Hv').
    unfold hasProp. rewrite Hv'. simpl. rewrite (validateInput_security _ _ Hv'). simpl.
    by apply (setProp_loop_has _ _ _ _ (split_nonempty _ _) Hl).
  - rewrite (getProp_after_setProp _ _ _ _ _ _ VUndefined H) by by apply applyTransformers_idle.
    done.
Qed.

Lemma setProp_undefined_has_and_fallback_witness :
  setProp fallback_NA (VObj ∅) (VStr "a") VUndefined = Ret with_undefined /\
  hasProp with_undefined (VStr "a") = Ret true /\
  getProp fallback_NA with_undefined (VStr "a") VUndefined = Ret (VStr "N/A").
Proof.
  assert (setProp fallback_NA (VObj ∅) (VStr "a") VUndefined = Ret with_undefined) as H
    by (vm_compute; reflexivity).
  split; [exact H|].
  apply (setProp_undefined_has_and_fallback fallback_NA (VObj ∅) "a" with_undefined);
    [reflexivity|exact H].
Defined.

(** ** What [setProp] leaves alone *)

Lemma lookup_path_cons cur k q :
  is_nullish cur = false ->
  lookup_path cur (k :: q) =
    match get_member cur k with Ret child => lookup_path child q | _ => VUndefined end.
Proof.
  intros Hn. unfold lookup_path. simpl. rewrite Hn.
  by destruct (get_member cur k).
Qed.

Lemma lookup_path_undefined q : lookup_path VUndefined q = VUndefined.
Proof. by destruct q. Qed.




(** [getProp] depends on the container only through [lookup_path]. *)
Lemma getProp_by_lookup cfg c path d :
  getProp cfg c path d =
    _ ← validateInput c path;
    _ ← validateSecurityTerms (path_text path);
    let current := lookup_path c (JsString.split "." (path_text path)) in
    if is_undefined current then Ret (nullish_coalesce d (fallback cfg))
    else applyTransformers current (path_text path) (tr_getProp (transformers cfg)).
Proof.
  unfold getProp, lookup_path.
  destruct (validateInput c path) as [[]| |] eqn:Hv; simpl; try done.
  destruct (validateSecurityTerms _) as [[]| |]; simpl; try done.
  apply validateInput_ret in Hv as (Hn & _).
  generalize (JsString.split "." (path_text path)). intros parts.
  assert (exists o, getProp_loop c parts = Ret o) as [o ->].
  { clear Hn. revert c. induction parts as [|k parts IH]; intros c; simpl; [eauto|].
    destruct (is_nullish c) eqn:Hn; [eauto|].
    destruct c; try done; simpl; try apply IH.
    - destruct (JsNumber.array_index k); [apply IH|]. case_decide; apply IH.
    - destruct (JsNumber.array_index k); [apply IH|]. case_decide; apply IH. }
  simpl. by destruct o.
Qed.




(** ** [removeProp] *)

Lemma removeProp_loop_cons cur part r rest :
  removeProp_loop cur (part :: r :: rest) =
    if is_nullish cur then Ret cur
    else
      child ← get_member cur part;
      if is_undefined child then Ret cur
      else child ← removeProp_loop child (r :: rest); Ret (write_back cur part child).
Proof. reflexivity. Qed.

(** Removal keeps the kind of a value, and keeps a value that is not a
    container as it is. *)
Lemma removeProp_loop_shape parts : forall cur cur1,
  removeProp_loop cur parts = Ret cur1 ->
  is_container cur1 = is_container cur /\ (is_container cur = false -> cur1 = cur).
Proof.
  induction parts as [|part rest IH]; intros cur cur1.
  { intros [= <-]; done. }
  destruct rest as [|r rest].
  - simpl. destruct (is_nullish cur) eqn:Hn; [intros [= <-]; done|].
    destruct cur; try done; try apply delete_member_shape.
    destruct (JsNumber.parseInt part); intros [= <-]; done.
  - rewrite removeProp_loop_cons.
    destruct (is_nullish cur) eqn:Hn; [intros [= <-]; done|].
    intros (child & Hg & H)%bind_ret_inv.
    destruct (is_undefined child) eqn:Hu; [injection H as <-; done|].
    apply bind_ret_inv in H as (child' & Hl & [= <-]).
    rewrite write_back_container. split; [done|]. by destruct cur.
Qed.

Lemma removeProp_loop_twice parts : forall cur cur1,
  removes_from_array cur parts = false ->
  removeProp_loop cur parts = Ret cur1 ->
  removeProp_loop cur1 parts = Ret cur1.
Proof.
  induction parts as [|part rest IH]; intros cur cur1 Hr.
  { by intros [= <-]. }
  destruct rest as [|r rest].
  - simpl in *. destruct (is_nullish cur) eqn:Hn; [intros [= <-]; by rewrite Hn|].
    intros H. destruct cur; try done.
    + by injection H as <-.
    + by injection H as <-.
    + pose proof (delete_member_shape _ _ _ H) as [_ E].
      rewrite (E eq_refl) in H |- *. exact H.
    + simpl in H. injection H as <-. simpl. by rewrite delete_delete_eq.
    + simpl in Hr. destruct (JsNumber.parseInt part) eqn:Hp; [done|].
      by injection H as <-.
  - rewrite removeProp_loop_cons.
    destruct (is_nullish cur) eqn:Hn.
    { intros [= <-]. by rewrite removeProp_loop_cons, Hn. }
    intros (child & Hg & H)%bind_ret_inv.
    destruct (is_undefined child) eqn:Hu.
    { injection H as <-. by rewrite removeProp_loop_cons, Hn, Hg; simpl; rewrite Hu. }
    apply bind_ret_inv in H as (child' & Hl & [= <-]).
    change (removes_from_array cur (part :: r :: rest)) with
      (match get_member cur part with
       | Ret child => removes_from_array child (r :: rest)
       | _ => false
       end) in Hr.
    rewrite Hg in Hr.
    pose proof (removeProp_loop_shape _ _ _ Hl) as [Hk Hsame].
    destruct (is_container child) eqn:Hc.
    + pose proof (get_member_container _ _ _ Hg Hc) as Hh.
      rewrite removeProp_loop_cons.
      assert (is_nullish (write_back cur part child') = false) as ->.
      { apply container_not_nullish. rewrite write_back_container.
        by eapply holds_container. }
      rewrite (get_write_back _ _ _ _ Hh). bind_step.
      assert (is_undefined child' = false) as -> by by destruct child'.
      rewrite (IH _ _ Hr Hl). bind_step. by rewrite write_back_twice.
    + rewrite (Hsame eq_refl) in *.
      rewrite (write_back_unchanged _ _ _ Hg Hu).
      rewrite removeProp_loop_cons, Hn, Hg. bind_step.
      rewrite Hu, Hl. bind_step.
      by rewrite (write_back_unchanged _ _ _ Hg Hu).
Qed.

(** C3, as stated, fails on a sequence parent: the second call splices
    out the element that moved into the place of the first. *)
Lemma remove_twice_on_array :
  removeProp initialConfig with_arr (VStr "arr.0") = Ret with_arr_2_3 /\
  removeProp initialConfig with_arr_2_3 (VStr "arr.0") = Ret with_arr_3 /\
  with_arr_2_3 <> with_arr_3.
Proof.
  split_and!; [vm_compute; reflexivity..|].
  intros H.
  apply (f_equal (fun c => getProp initialConfig c (VStr "arr.length") VUndefined)) in H.
  vm_compute in H. discriminate.
Qed.

(** C3, amended: for a container of plain, unshared data and a path
    whose last segment is not spliced out of a sequence (the value the
    last segment is applied to is not an array, or the segment does not
    read as an integer), a second [removeProp(c, p)] leaves the
    container as the first one left it.  On a sequence parent each call
    splices out whatever element is at the index at that time. *)
Theorem removeProp_twice cfg c p c1 :
  removes_from_array c (JsString.split "." p) = false ->
  removeProp cfg c (VStr p) = Ret c1 ->
  removeProp cfg c1 (VStr p) = Ret c1.
Proof.
  unfold removeProp. intros Hr.
  destruct (is_nullish c) eqn:Hn; [intros [= <-]; by rewrite Hn|].
  intros (u & Hv%unit_outcome & (u' & Hs & (w & Ht & H)%bind_ret_inv)%bind_ret_inv)%bind_ret_inv.
  simpl in *.
  destruct (fires p _) eqn:Hf; [done|].
  pose proof (removeProp_loop_shape _ _ _ H) as [Hk Hsame].
  assert (is_nullish c1 = false) as Hn1.
  { destruct (is_container c) eqn:Hc; [apply container_not_nullish; congruence|].
    by rewrite (Hsame eq_refl). }
  rewrite Hn1.
  assert (validateInput c1 (VStr p) = Ret tt) as ->.
  { apply validateInput_ret in Hv as (_ & ? & ?). by apply validateInput_ret. }
  simpl. rewrite (unit_outcome _ _ Hs). simpl.
  rewrite applyTransformers_idle by done. simpl.
  by apply (removeProp_loop_twice _ c).
Qed.

Lemma removeProp_twice_witness :
  removeProp initialConfig with_a_b (VStr "a.b") = Ret (VObj {[ "a" := VObj ∅ ]}) /\
  removeProp initialConfig (VObj {[ "a" := VObj ∅ ]}) (VStr "a.b")
    = Ret (VObj {[ "a" := VObj ∅ ]}).
Proof.
  assert (removeProp initialConfig with_a_b (VStr "a.b") = Ret (VObj {[ "a" := VObj ∅ ]}))
    as H by (vm_compute; reflexivity).
  split; [exact H|].
  apply (removeProp_twice initialConfig with_a_b "a.b" (VObj {[ "a" := VObj ∅ ]}));
    [reflexivity|exact H].
Defined.

(** C6, as stated, fails: with a [null] or [undefined] container the
    call returns before any validation, whatever the path. *)
Lemma removeProp_null_container_unsafe_path :
  removeProp initialConfig VNull (VStr "__proto__") = Ret VNull /\
  removeProp initialConfig VUndefined (VStr "") = Ret VUndefined /\
  removeProp initialConfig VNull (VNum 7) = Ret VNull.
Proof. split_and!; reflexivity. Qed.

(** C6, amended: [removeProp] returns a [null] or [undefined] container
    unchanged without raising, whatever the path, valid or not; for any
    other container it raises the invalid-path error when the path is
    not a string or is empty or blank, and a security violation when the
    path is a proper string with a reserved segment. *)
Theorem removeProp_guards cfg c path :
  (is_nullish c = true -> removeProp cfg c path = Ret c) /\
  (is_nullish c = false -> valid_path path = false ->
     removeProp cfg c path = Throw (mkError ClsError INVALID_PATH)) /\
  (is_nullish c = false -> valid_path path = true -> unsafe_path path = true ->
     exists part, part ∈ securityTerms /\
       removeProp cfg c path = Throw (security_violation part)).
Proof.
  unfold removeProp, validateInput. split_and!; intros Hc; rewrite Hc; [done|..].
  - intros Hp. destruct path; try done. simpl in Hp.
    apply negb_false_iff in Hp. by rewrite Hp.
  - intros Hp Hu. destruct path; try done. simpl in Hp, Hu.
    apply negb_true_iff in Hp. rewrite Hp.
    apply check_parts_unsafe in Hu as (part & Hin & _ & Hthrow).
    exists part. split; [done|]. unfold validateSecurityTerms. by rewrite Hthrow.
Qed.

Lemma removeProp_guards_witness :
  removeProp initialConfig VUndefined (VStr "") = Ret VUndefined /\
  removeProp initialConfig with_arr (VStr " ") = Throw (mkError ClsError INVALID_PATH) /\
  removeProp initialConfig with_arr (VNum 7) = Throw (mkError ClsError INVALID_PATH) /\
  exists part, part ∈ securityTerms /\
    removeProp initialConfig with_arr (VStr "arr.constructor")
      = Throw (security_violation part).
Proof.
  split_and!.
  - apply (removeProp_guards initialConfig VUndefined (VStr "")); reflexivity.
  - apply (removeProp_guards initialConfig with_arr (VStr " ")); reflexivity.
  - apply (removeProp_guards initialConfig with_arr (VNum 7)); reflexivity.
  - apply (removeProp_guards initialConfig with_arr (VStr "arr.constructor")); reflexivity.
Defined.

(** ** Reserved identifiers *)

(** C5, as stated, fails for a [null] container: the null check comes
    first and its error is not a security violation. *)
Lemma getProp_null_container_reserved :
  getProp initialConfig VNull (VStr ("a." +:+ "__proto__")) VUndefined
    = Throw (mkError ClsError NULL_OR_UNDEFINED) /\
  is_security_violation (mkError ClsError NULL_OR_UNDEFINED) = false.
Proof. split; reflexivity. Qed.

(** C5, amended: for every reserved identifier [R] and every container
    other than [null] and [undefined], [getProp(c, "a." + R)] fails with
    the security violation that names [R]. *)
Theorem getProp_reserved_segment cfg c d R :
  R ∈ securityTerms ->
  is_nullish c = false ->
  getProp cfg c (VStr ("a." +:+ R)) d = Throw (security_violation R).
Proof.
  intros HR Hc. unfold getProp, validateInput. rewrite Hc.
  unfold securityTerms in HR.
  repeat (apply elem_of_cons in HR as [->|HR]); [reflexivity..|].
  by apply elem_of_nil in HR.
Qed.

Lemma getProp_reserved_segment_witness :
  getProp initialConfig (VObj ∅) (VStr ("a." +:+ "__proto__")) VUndefined
    = Throw (security_violation "__proto__").
Proof.
  apply (getProp_reserved_segment initialConfig (VObj ∅) VUndefined "__proto__");
    [|reflexivity].
  apply elem_of_cons; left; reflexivity.
Defined.

(** ** Missing data *)

(** When the walk of [getProp] finds nothing, the call returns the
    default it was given or else the configured fallback. *)
Lemma getProp_missing cfg c path d :
  validateInput c path = Ret tt ->
  lookup_path c (JsString.split "." (path_text path)) = VUndefined ->
  getProp cfg c path d = Ret (nullish_coalesce d (fallback cfg)).
Proof.
  intros Hv Hl. rewrite getProp_by_lookup, Hv. bind_step.
  destruct path; try (by apply validateInput_ret in Hv as (_ & ? & _)).
  cbn [path_text] in *. rewrite (validateInput_security _ _ Hv). bind_step.
  cbv zeta. by rewrite Hl.
Qed.

(** C4 on the code: with a number at [a], [hasProp(c, "a.b")] throws a
    [TypeError] where the claim has it return [false]; with [null] or a
    number at [a], [setProp(c, "a.b", 1)] throws a [TypeError] where the
    claim has it create the intermediate.  [getProp] and [removeProp] do
    what the claim says on the same inputs, and [hasProp] does on the
    [null] intermediate. *)
Theorem missing_data_throws :
  hasProp with_scalar (VStr "a.b")
    = Throw (type_error "Cannot use 'in' operator on a value that is not an object") /\
  setProp initialConfig with_null (VStr "a.b") (VNum 1)
    = Throw (type_error "Cannot set properties of null or undefined") /\
  setProp initialConfig with_scalar (VStr "a.b") (VNum 1)
    = Throw (type_error "Cannot create property on a primitive value") /\
  getProp initialConfig with_scalar (VStr "a.b") VUndefined = Ret VUndefined /\
  getProp initialConfig with_null (VStr "a.b") VUndefined = Ret VUndefined /\
  hasProp with_null (VStr "a.b") = Ret false /\
  removeProp initialConfig with_null (VStr "a.b") = Ret with_null /\
  removeProp initialConfig with_scalar (VStr "a.b") = Ret with_scalar.
Proof. split_and!; vm_compute; reflexivity. Qed.

(** ** Templates *)

Lemma getProp_x_3 cfg :
  fires "x" (tr_getProp (transformers cfg)) = false ->
  getProp cfg with_x_3 (VStr "x") VUndefined = Ret (VNum 3).
Proof.
  intros Hf. unfold getProp.
  change (validateInput _ _) with (Ret (A:=unit) tt). bind_step. cbn [path_text].
  change (validateSecurityTerms "x") with (Ret (A:=unit) tt). bind_step.
  change (getProp_loop _ _) with (Ret (Some (VNum 3))). bind_step.
  cbn [is_undefined]. by apply applyTransformers_idle.
Qed.


Lemma exec_bind {A B} (m : Debug.Run A) (f : A -> Debug.Run B) out :
  Debug.exec (m ≫= f) out =
    match Debug.exec m out with
    | (Ret a, out') => Debug.exec (f a) out'
    | (Throw e, out') => (Throw e, out')
    | (Unmodelled, out') => (Unmodelled, out')
    end.
Proof. reflexivity. Qed.

Ltac run_step :=
  cbn [Debug.exec mbind Debug.run_bind mret Debug.run_ret Debug.lift Debug.throw
       Debug.write Debug.rethrowing
       Template.templateLogger_log Template.templateLogger_error
       Template.templateLogger_warn Debug.log Debug.log_error Debug.warn
       Debug.debugLog Debug.enabled negb].

(** X25: running a chain of transforms is running its first part and
    then the rest on the value the first part produced, with what
    both parts write; an error of the first part ends the chain. *)
Lemma transform_loop_app dbg cfg engine data ts1 : forall ts2 v out,
  Debug.exec (Template.transform_loop dbg cfg engine v (ts1 ++ ts2) data) out =
    match Debug.exec (Template.transform_loop dbg cfg engine v ts1 data) out with
    | (Ret v', out') => Debug.exec (Template.transform_loop dbg cfg engine v' ts2 data) out'
    | (Throw e, out') => (Throw e, out')
    | (Unmodelled, out') => (Unmodelled, out')
    end.
Proof.
  induction ts1 as [|t ts1 IH]; intros ts2 v out; [done|].
  cbn [app Template.transform_loop]. rewrite !exec_bind.
  destruct (Debug.exec (Debug.rethrowing _ _) out) as [[v'| |] out']; [apply IH|done..].
Qed.

Ltac chain_script Hadd Hmul Hf E1 E2 :=
  cbv zeta; cbn [Template.replace_loop]; unfold Template.processTemplateMatch;
  match goal with
  | |- context [Template.extractTemplateContent ?m] =>
      let c := eval vm_compute in (Template.extractTemplateContent m) in
      change (Template.extractTemplateContent m) with c;
      cbn [JsString.is_empty];
      let e := eval vm_compute in (Template.extractTransformers c) in
      change (Template.extractTransformers c) with e
  end;
  run_step;
  change (Template.validateTemplateInput _ _) with (Ret (A:=unit) tt);
  rewrite (getProp_x_3 _ Hf); cbn [is_undefined]; run_step;
  cbn [Template.transform_loop]; unfold Template.applyTransform;
  change (JsString.indexOf "add:1" ":") with (Some 3%nat);
  change (JsString.indexOf "multiply:2" ":") with (Some 8%nat);
  cbv beta iota zeta;
  change (JsString.trim (JsString.take 3 "add:1")) with "add"%string;
  change (JsString.trim (JsString.take 8 "multiply:2")) with "multiply"%string;
  cbn [JsString.is_empty]; rewrite Hadd, Hmul; cbn [default from_option id];
  rewrite E1, E2; vm_compute; reflexivity.

(** C2: with [add] and [multiply] registered (among whatever other
    transforms, whatever the default transform, the fallback and the
    debug setting), the template [{{x | add:1 | multiply:2}}] on
    [{x: 3}] renders ["8"], that is [(3 + 1) * 2]: the transforms apply
    from left to right, each on the result of the one before.  The
    reversed chain renders ["7"]. *)
Theorem transform_chain_left_to_right dbg cfg engine :
  Template.transformers engine !! "add" = Some Template.add ->
  Template.transformers engine !! "multiply" = Some Template.multiply ->
  fires "x" (tr_getProp (transformers cfg)) = false ->
  (Template.render dbg cfg engine "{{x | add:1 | multiply:2}}" with_x_3).1 = Ret "8" /\
  (Template.render dbg cfg engine "{{x | multiply:2 | add:1}}" with_x_3).1 = Ret "7".
Proof.
  intros Hadd Hmul Hf.
  unfold Template.render, Template.template, Template.processTemplate.
  split.
  - change (Pattern.match_all _) with ["{{x | add:1 | multiply:2}}"].
    destruct dbg as [[|]];
      destruct (Template.same_function Template.add (Template.defaultTransformer engine))
        eqn:E1;
      destruct (Template.same_function Template.multiply
                  (Template.defaultTransformer engine)) eqn:E2;
      chain_script Hadd Hmul Hf E1 E2.
  - change (Pattern.match_all _) with ["{{x | multiply:2 | add:1}}"].
    destruct dbg as [[|]];
      destruct (Template.same_function Template.add (Template.defaultTransformer engine))
        eqn:E1;
      destruct (Template.same_function Template.multiply
                  (Template.defaultTransformer engine)) eqn:E2;
      chain_script Hadd Hmul Hf E1 E2.
Qed.

Lemma transform_chain_left_to_right_witness :
  (Template.render debug_on initialConfig chain_engine
     "{{x | add:1 | multiply:2}}" with_x_3).1 = Ret "8" /\
  (Template.render debug_on initialConfig chain_engine
     "{{x | multiply:2 | add:1}}" with_x_3).1 = Ret "7".
Proof.
  apply (transform_chain_left_to_right debug_on initialConfig chain_engine); reflexivity.
Defined.




(** C9, as stated, fails: the replace step of a match rewrites one
    occurrence and leaves an identical one in place; two identical
    occurrences are two matches, each evaluated (two [get] lines); and
    a text equal to a later match, brought in by an earlier value, takes
    the replacement meant for that match. *)
Lemma identical_occurrences_are_not_replaced_together :
  JsString.replace "{{x}} {{x}}" "{{x}}" "v" = "v {{x}}" /\
  (Template.render debug_on initialConfig Template.initialEngine
     "{{x}} {{x}}" with_x_v).1 = Ret "v v" /\
  length (get_lines (Template.render debug_on initialConfig Template.initialEngine
                       "{{x}} {{x}}" with_x_v).2) = 2%nat /\
  (Template.render debug_off initialConfig Template.initialEngine
     "{{a}}{{b}}" with_braces).1 = Ret "Z{{b}}".
Proof. split_and!; vm_compute; reflexivity. Qed.

Lemma replace_first_occurrence s p v i :
  plain_replacement v = true ->
  JsString.indexOf s p = Some i ->
  JsString.replace s p v =
    JsString.take i s +:+ v +:+ JsString.drop (i + String.length p) s.
Proof.
  intros Hv Hi. unfold JsString.replace. rewrite Hi. by rewrite substitution_plain.
Qed.

(** C9, amended: substitution is by literal substring replacement of
    one occurrence per step.  Every match found by the scan has a step
    of its own, in source order: the step evaluates the matched text
    and, the result string being taken literally when it has no [$],
    rewrites the leftmost occurrence of the matched text in the current
    result (nothing before it is an occurrence), keeps whatever follows
    that occurrence as it is, and goes on with the remaining matches,
    identical ones included. *)
Theorem replace_step_first_occurrence_only
    dbg cfg engine result matched rest data out v out' i :
  Debug.exec (Template.processTemplateMatch dbg cfg engine matched data) out = (Ret v, out') ->
  plain_replacement v = true ->
  JsString.indexOf result matched = Some i ->
  (forall j, (j < i)%nat ->
     JsString.startsWith (JsString.drop j result) matched = false) /\
  Debug.exec (Template.replace_loop dbg cfg engine result (matched :: rest) data) out =
  Debug.exec (Template.replace_loop dbg cfg engine
                (JsString.take i result +:+ v
                   +:+ JsString.drop (i + String.length matched) result)
                rest data) out'.
Proof.
  intros He Hv Hi. split; [by apply (indexOf_first _ _ _ Hi)|].
  cbn [Template.replace_loop]. run_step. rewrite exec_bind, He. run_step.
  by rewrite (replace_first_occurrence _ _ _ _ Hv Hi).
Qed.

Lemma replace_step_first_occurrence_only_witness :
  Debug.exec (Template.replace_loop debug_off initialConfig Template.initialEngine
                "{{x}} {{x}}" ["{{x}}"; "{{x}}"] with_x_v) [] =
  Debug.exec (Template.replace_loop debug_off initialConfig Template.initialEngine
                "v {{x}}" ["{{x}}"] with_x_v) [].
Proof.
  apply (replace_step_first_occurrence_only debug_off initialConfig Template.initialEngine
           "{{x}} {{x}}" "{{x}}" ["{{x}}"] with_x_v [] "v" [] 0);
    [vm_compute; reflexivity|reflexivity|reflexivity].
Defined.

(* ================================================================== *)
(** * Further properties of the code *)
(* ================================================================== *)

(** ** Strings *)

Lemma append_cons x s t : String x s +:+ t = String x (s +:+ t).
Proof. reflexivity. Qed.

Lemma append_empty s : s +:+ "" = s.
Proof. induction s as [|x s IH]; [done|]. by rewrite append_cons, IH. Qed.

Lemma append_assoc a b c : (a +:+ b) +:+ c = a +:+ (b +:+ c).
Proof. induction a as [|x a IH]; [done|]. by rewrite !append_cons, IH. Qed.

Lemma length_append a b :
  String.length (a +:+ b) = (String.length a + String.length b)%nat.
Proof. induction a as [|x a IH]; [done|]. rewrite append_cons. simpl. by rewrite IH. Qed.

Lemma take_append a b : JsString.take (String.length a) (a +:+ b) = a.
Proof.
  induction a as [|x a IH]; [by destruct b|]. rewrite append_cons. simpl. by rewrite IH.
Qed.

Lemma drop_append a b : JsString.drop (String.length a) (a +:+ b) = b.
Proof.
  induction a as [|x a IH]; [by destruct b|]. rewrite append_cons. simpl. by rewrite IH.
Qed.

Lemma endsWith_append a b : JsString.endsWith (a +:+ b) b = true.
Proof.
  unfold JsString.endsWith. rewrite length_append.
  apply andb_true_iff. split; [apply Nat.leb_le; lia|].
  apply bool_decide_eq_true.
  replace (String.length a + String.length b - String.length b)%nat
    with (String.length a) by lia.
  apply drop_append.
Qed.

Lemma startsWith_append m : forall rest, JsString.startsWith (m +:+ rest) m = true.
Proof.
  induction m as [|x m IH]; intros rest; [by destruct rest|].
  rewrite append_cons. cbn [JsString.startsWith]. rewrite bool_decide_eq_true_2 by done.
  apply IH.
Qed.

Lemma is_empty_append a c b : JsString.is_empty (a +:+ String c b) = false.
Proof. by destruct a. Qed.

Lemma avoids_append c a b : avoids c (a +:+ b) = avoids c a && avoids c b.
Proof.
  induction a as [|x a IH]; [done|]. rewrite append_cons. cbn [avoids].
  by rewrite IH, andb_assoc.
Qed.

Lemma includes_false s p : JsString.includes s p = false <-> JsString.indexOf s p = None.
Proof. unfold JsString.includes. by destruct (JsString.indexOf s p). Qed.

Lemma includes_avoids c s :
  avoids c s = true -> JsString.includes s (String c EmptyString) = false.
Proof.
  intros H. apply includes_false. induction s as [|a s IH]; [done|].
  cbn [avoids] in H. apply andb_true_iff in H as [Hc%negb_true_iff%bool_decide_eq_false Hs].
  cbn [JsString.indexOf JsString.startsWith].
  rewrite bool_decide_eq_false_2 by naive_solver. cbn [andb]. by rewrite IH.
Qed.

Lemma includes_separator c a b :
  JsString.includes (a +:+ String c b) (String c EmptyString) = true.
Proof.
  unfold JsString.includes.
  induction a as [|x a IH].
  - change ("" +:+ ?s) with s. cbn [JsString.indexOf JsString.startsWith].
    rewrite bool_decide_eq_true_2 by done. by destruct b.
  - rewrite append_cons. cbn [JsString.indexOf].
    destruct (JsString.startsWith _ _); [done|].
    by destruct (JsString.indexOf (a +:+ String c b) (String c "")).
Qed.

(** A text without the separator is one piece, and a separator cuts a
    text into the pieces of its two sides. *)
Lemma split_avoids sep s : avoids sep s = true -> JsString.split sep s = [s].
Proof.
  induction s as [|c s IH]; [done|]. cbn [avoids JsString.split].
  intros [Hc%negb_true_iff%bool_decide_eq_false Hs]%andb_true_iff.
  rewrite decide_False by done. by rewrite IH.
Qed.

Lemma split_app_sep sep a b :
  JsString.split sep (a +:+ String sep b)
    = (JsString.split sep a ++ JsString.split sep b)%list.
Proof.
  induction a as [|c a IH].
  - change ("" +:+ ?s) with s. cbn [JsString.split]. by rewrite decide_True.
  - rewrite append_cons. cbn [JsString.split]. case_decide; [by rewrite IH|]. rewrite IH.
    destruct (JsString.split sep a) as [|h t] eqn:Hs; [by apply split_nonempty in Hs|done].
Qed.

(** [trim] gives a text that it leaves alone. *)
Lemma trimEnd_idem s : JsString.trimEnd (JsString.trimEnd s) = JsString.trimEnd s.
Proof.
  induction s as [|c s IH]; simpl; [done|].
  destruct (JsString.is_white c && JsString.is_empty (JsString.trimEnd s)) eqn:E; [done|].
  simpl. rewrite IH, E. done.
Qed.

Lemma trimStart_shape s :
  JsString.trimStart s = EmptyString \/
  exists c r, JsString.trimStart s = String c r /\ JsString.is_white c = false.
Proof.
  induction s as [|c s IH]; simpl; [by left|].
  destruct (JsString.is_white c) eqn:E; [done|]. right. eauto.
Qed.

Lemma trim_idem s : JsString.trim (JsString.trim s) = JsString.trim s.
Proof.
  unfold JsString.trim.
  destruct (trimStart_shape s) as [->|(c & r & -> & Hc)]; [done|].
  cbn [JsString.trimEnd]. rewrite Hc. cbn [andb].
  cbn [JsString.trimStart]. rewrite Hc.
  cbn [JsString.trimEnd]. rewrite Hc. cbn [andb]. by rewrite trimEnd_idem.
Qed.

Lemma avoids_trimStart c s : avoids c s = true -> avoids c (JsString.trimStart s) = true.
Proof.
  induction s as [|a s IH]; simpl; [done|].
  intros [Ha Hs]%andb_true_iff. destruct (JsString.is_white a); [auto|].
  simpl. by rewrite Ha, Hs.
Qed.

Lemma avoids_trimEnd c s : avoids c s = true -> avoids c (JsString.trimEnd s) = true.
Proof.
  induction s as [|a s IH]; simpl; [done|].
  intros [Ha Hs]%andb_true_iff. destruct (_ && _); [done|].
  simpl. by rewrite Ha, IH.
Qed.

Lemma avoids_trim c s : avoids c s = true -> avoids c (JsString.trim s) = true.
Proof. intros H. by apply avoids_trimEnd, avoids_trimStart. Qed.


(** ** Reserved identifiers in a path *)

Lemma check_parts_ret parts :
  check_parts parts = Ret tt <-> Forall (fun part => part ∉ securityTerms) parts.
Proof.
  induction parts as [|part rest IH]; simpl.
  - split; [constructor|done].
  - case_bool_decide as Hp.
    + split; [done|]. intros [? _]%Forall_cons. done.
    + rewrite IH. split; [by constructor|]. by intros [_ ?]%Forall_cons.
Qed.

Lemma check_parts_app l1 l2 :
  check_parts (l1 ++ l2)%list = Ret tt -> check_parts l1 = Ret tt.
Proof. rewrite !check_parts_ret. by intros [? _]%Forall_app. Qed.

(** X1: [validateSecurityTerms] accepts a path exactly when none of
    its dot-separated segments is one of the reserved identifiers.
    Segments are compared whole: a reserved word inside a longer
    segment is accepted. *)
Theorem validateSecurityTerms_accepts path :
  validateSecurityTerms path = Ret tt <->
  Forall (fun part => part ∉ securityTerms) (JsString.split "." path).
Proof.
  unfold validateSecurityTerms. split.
  - intros H. by apply check_parts_ret.
  - intros H. by apply check_parts_ret.
Qed.

(** X2: when a path has reserved segments, [validateSecurityTerms]
    fails with the security violation that names the leftmost one. *)
Theorem validateSecurityTerms_leftmost path before part after :
  JsString.split "." path = (before ++ part :: after)%list ->
  Forall (fun p => p ∉ securityTerms) before ->
  part ∈ securityTerms ->
  validateSecurityTerms path = Throw (security_violation part).
Proof.
  intros Hs Hb Hp. unfold validateSecurityTerms. rewrite Hs. clear Hs.
  induction Hb as [|p before Hn _ IH]; simpl.
  - by rewrite bool_decide_eq_true_2.
  - by rewrite bool_decide_eq_false_2.
Qed.

Lemma validateSecurityTerms_leftmost_witness :
  validateSecurityTerms "a.get.set" = Throw (security_violation "get").
Proof.
  apply (validateSecurityTerms_leftmost "a.get.set" ["a"] "get" ["set"]).
  - reflexivity.
  - repeat constructor. apply (bool_decide_unpack _). vm_compute. exact I.
  - apply (bool_decide_unpack _). vm_compute. exact I.
Defined.

(** ** Reading *)

Lemma getProp_ret_valid cfg obj path d v :
  getProp cfg obj path d = Ret v -> validateInput obj path = Ret tt.
Proof. unfold getProp. by intros (u & Hv%unit_outcome & _)%bind_ret_inv. Qed.



Lemma has_member_false cur k :
  has_member cur k = Ret false -> get_member cur k = Ret VUndefined.
Proof.
  destruct cur; simpl; try discriminate.
  - intros [= E]. apply bool_decide_eq_false in E. destruct (props !! k); [|done].
    destruct E; eauto.
  - destruct (JsNumber.array_index k) as [i|].
    + intros [= E]. apply bool_decide_eq_false in E. destruct (mjoin (elems !! i)); [|done].
      destruct E; eauto.
    + case_decide; [discriminate|].
      intros [= E]. apply bool_decide_eq_false in E. destruct (extra !! k); [|done].
      destruct E; eauto.
Qed.

Lemma lookup_path_nullish cur parts :
  is_nullish cur = true -> parts <> [] -> lookup_path cur parts = VUndefined.
Proof.
  intros Hn. destruct parts; [done|]. intros _. unfold lookup_path. simpl. by rewrite Hn.
Qed.

Lemma hasProp_loop_false parts : forall cur,
  hasProp_loop cur parts = Ret false -> lookup_path cur parts = VUndefined.
Proof.
  induction parts as [|part rest IH]; intros cur; [done|].
  cbn [hasProp_loop]. destruct (is_nullish cur) eqn:Hn.
  { intros _. by apply lookup_path_nullish. }
  intros (present & Hh & H)%bind_ret_inv. rewrite lookup_path_cons by done.
  destruct present; simpl in H.
  - apply bind_ret_inv in H as (next & -> & H). by apply IH.
  - rewrite (has_member_false _ _ Hh). apply lookup_path_undefined.
Qed.

(** X4: whenever [hasProp(c, p)] is [false], [getProp(c, p, d)] is the
    default [d], or the configured fallback when [d] is [null] or
    [undefined]; no [getProp] transformer is applied to it. *)
Theorem hasProp_false_getProp_fallback cfg c path d :
  hasProp c path = Ret false ->
  getProp cfg c path d = Ret (nullish_coalesce d (fallback cfg)).
Proof.
  unfold hasProp.
  intros (u & Hv%unit_outcome & (u' & _ & H)%bind_ret_inv)%bind_ret_inv.
  apply getProp_missing; [done|]. by apply hasProp_loop_false.
Qed.

Lemma hasProp_false_getProp_fallback_witness :
  getProp fallback_NA with_a_b (VStr "a.c") VNull = Ret (VStr "N/A").
Proof.
  apply (hasProp_false_getProp_fallback fallback_NA with_a_b (VStr "a.c") VNull).
  vm_compute. reflexivity.
Defined.

Lemma hasProp_loop_app l1 : forall cur l2,
  hasProp_loop cur (l1 ++ l2)%list = Ret true -> hasProp_loop cur l1 = Ret true.
Proof.
  induction l1 as [|part rest IH]; intros cur l2; [done|].
  cbn [app hasProp_loop]. destruct (is_nullish cur); [done|].
  intros (present & -> & H)%bind_ret_inv. bind_step.
  destruct present; [|done]. simpl in *.
  apply bind_ret_inv in H as (next & -> & H). bind_step. by eapply IH.
Qed.

(** X5: a path that [hasProp] finds has all its prefixes found: if
    [hasProp(c, p + "." + q)] is [true] then so is [hasProp(c, p)],
    for [p] not blank. *)
Theorem hasProp_of_prefix c p q :
  hasProp c (VStr (p +:+ "." +:+ q)) = Ret true ->
  valid_path (VStr p) = true ->
  hasProp c (VStr p) = Ret true.
Proof.
  unfold hasProp. cbn [path_text].
  intros (u & Hv%unit_outcome & (u' & Hs%unit_outcome & H)%bind_ret_inv)%bind_ret_inv Hp.
  change (p +:+ "." +:+ q) with (p +:+ String "." q) in *.
  unfold validateSecurityTerms in *. rewrite split_app_sep in *.
  apply check_parts_app in Hs. apply hasProp_loop_app in H.
  assert (validateInput c (VStr p) = Ret tt) as ->.
  { apply validateInput_ret in Hv as (Hn & _ & _). apply validateInput_ret.
    split_and!; try done.
    simpl. destruct (existsb _ _) eqn:He; [|done].
    apply check_parts_unsafe in He as (? & _ & _ & He). congruence. }
  bind_step. rewrite Hs. by bind_step.
Qed.

Lemma hasProp_of_prefix_witness : hasProp with_a_b (VStr "a") = Ret true.
Proof. apply (hasProp_of_prefix with_a_b "a" "b"); reflexivity. Defined.

(** ** Writing *)

(** X6: after a [setProp(c, p, v)] that returns, [hasProp(c, p)] is
    [true], whatever the value stored and whatever the transformers
    made of it. *)
Theorem setProp_then_hasProp cfg c p v c' :
  setProp cfg c (VStr p) v = Ret c' -> hasProp c' (VStr p) = Ret true.
Proof.
  intros (w & Hv & Hw & Hl & Hv')%setProp_ret.
  unfold hasProp. rewrite Hv'. simpl. rewrite (validateInput_security _ _ Hv'). simpl.
  by apply (setProp_loop_has _ _ _ _ (split_nonempty _ _) Hl).
Qed.

Lemma setProp_then_hasProp_witness :
  setProp initialConfig (VObj ∅) (VStr "a.b") (VNum 1) = Ret with_a_b /\
  hasProp with_a_b (VStr "a.b") = Ret true.
Proof.
  assert (setProp initialConfig (VObj ∅) (VStr "a.b") (VNum 1) = Ret with_a_b) as H
    by (vm_compute; reflexivity).
  split; [exact H|].
  apply (setProp_then_hasProp initialConfig (VObj ∅) "a.b" (VNum 1) with_a_b). exact H.
Defined.






(** ** Transformers *)

(** X9: the transformers of an operation run as a pipeline: applying
    the entries [entries1] followed by [entries2] is applying the
    first ones and then the second ones on the result, an error of the
    first part ending the whole. *)
Theorem applyTransformers_app v path entries1 entries2 :
  applyTransformers v path (entries1 ++ entries2) =
    applyTransformers v path entries1 ≫= fun w => applyTransformers w path entries2.
Proof.
  revert v. induction entries1 as [|[name f] rest IH]; intros v; [done|].
  cbn [app applyTransformers]. destruct (JsString.endsWith path name); [|apply IH].
  destruct (f v); simpl; [apply IH|done..].
Qed.

(** X10: a transformer is chosen by the end of the path text, not by
    segment: a [getProp] transformer registered under [name] is
    applied to the value found at any path whose text ends with
    [name], such as [surname] for [name]. *)
Theorem getProp_transformer_matches_suffix cfg c before name f d v :
  tr_getProp (transformers cfg) = [(name, f)] ->
  validateInput c (VStr (before +:+ name)) = Ret tt ->
  lookup_path c (JsString.split "." (before +:+ name)) = v ->
  is_undefined v = false ->
  getProp cfg c (VStr (before +:+ name)) d = f v.
Proof.
  intros Ht Hv Hl Hu. rewrite getProp_by_lookup, Hv. bind_step. cbn [path_text].
  rewrite (validateInput_security _ _ Hv). bind_step. cbv zeta.
  rewrite Hl, Hu, Ht. cbn [applyTransformers]. rewrite endsWith_append.
  by destruct (f v).
Qed.

Lemma getProp_transformer_matches_suffix_witness :
  getProp trims_name with_surname (VStr ("sur" +:+ "name")) VUndefined = Ret (VStr "Ever").
Proof.
  apply (getProp_transformer_matches_suffix trims_name with_surname "sur" "name"
           trim_transformer VUndefined (VStr " Ever ")); reflexivity.
Defined.

(** ** Removing *)


Lemma removes_from_array_cons cur part r rest :
  removes_from_array cur (part :: r :: rest) =
    match get_member cur part with
    | Ret child => removes_from_array child (r :: rest)
    | _ => false
    end.
Proof. reflexivity. Qed.





Lemma delete_member_absent cur k :
  isArray cur = false -> has_member cur k = Ret false -> delete_member cur k = Ret cur.
Proof.
  destruct cur; simpl; try discriminate. intros _ [= E]. apply bool_decide_eq_false in E.
  rewrite delete_id; [done|]. destruct (props !! k); [|done]. destruct E; eauto.
Qed.







Lemma removeProp_loop_absent parts : forall cur,
  hasProp_loop cur parts = Ret false ->
  removes_from_array cur parts = false ->
  removeProp_loop cur parts = Ret cur.
Proof.
  induction parts as [|part rest IH]; intros cur; [done|].
  destruct rest as [|r rest].
  - cbn [hasProp_loop removeProp_loop removes_from_array].
    destruct (is_nullish cur) eqn:Hn; [done|].
    intros (present & Hh & H)%bind_ret_inv Ha.
    destruct present; simpl in H.
    { apply bind_ret_inv in H as (next & _ & H). done. }
    destruct (isArray cur) eqn:Hi.
    + destruct cur; try done. simpl in Ha.
      destruct (JsNumber.parseInt part); [|done].
      apply bool_decide_eq_false in Ha. destruct Ha; eauto.
    + rewrite <- (delete_member_absent _ _ Hi Hh). by destruct cur.
  - rewrite removeProp_loop_cons, removes_from_array_cons. cbn [hasProp_loop].
    destruct (is_nullish cur) eqn:Hn; [done|].
    intros (present & Hh & H)%bind_ret_inv Ha.
    destruct present; simpl in H.
    + apply bind_ret_inv in H as (next & Hg & H). rewrite Hg in Ha |- *. bind_step.
      destruct (is_undefined next) eqn:Hu; [done|].
      rewrite (IH _ H Ha). bind_step. by rewrite (write_back_unchanged _ _ _ Hg Hu).
    + by rewrite (has_member_false _ _ Hh).
Qed.

(** X12: removing a path that [hasProp] does not find leaves the
    container as it is, provided the last segment is not spliced out
    of an array (no [removeProp] transformer applying to the path). *)
Theorem removeProp_of_missing_path cfg c path :
  hasProp c path = Ret false ->
  removes_from_array c (JsString.split "." (path_text path)) = false ->
  fires (path_text path) (tr_removeProp (transformers cfg)) = false ->
  removeProp cfg c path = Ret c.
Proof.
  unfold hasProp, removeProp.
  intros (u & Hv%unit_outcome & (u' & Hs%unit_outcome & H)%bind_ret_inv)%bind_ret_inv Ha Hf.
  destruct (is_nullish c); [done|]. rewrite Hv, Hs. bind_step.
  rewrite applyTransformers_idle by done. bind_step. rewrite Hf.
  by apply removeProp_loop_absent.
Qed.

Lemma removeProp_of_missing_path_witness :
  removeProp initialConfig with_arr (VStr "arr.name") = Ret with_arr.
Proof.
  apply (removeProp_of_missing_path initialConfig with_arr (VStr "arr.name")); reflexivity.
Defined.

(** The condition on splicing is needed: on an array the last segment
    is read with [parseInt], and a negative index, which is no
    property of the array, removes an element counted from the end. *)
Lemma removeProp_negative_index :
  hasProp with_arr (VStr "arr.-1") = Ret false /\
  removeProp initialConfig with_arr (VStr "arr.-1")
    = Ret (VObj {[ "arr" := array_of [VNum 1; VNum 2] ]}).
Proof. split; vm_compute; reflexivity. Qed.




(** X30: on an array the last segment is read with [parseInt]: when
    it reads as an index of the array, [removeProp] takes the element
    at that index out and the elements after it move down by one, the
    array getting shorter (the property [name] of an object holding
    the array, the path being [name.k]). *)
Theorem removeProp_splices_element cfg m name k idx elems extra :
  avoids "." name = true ->
  avoids "." k = true ->
  m !! name = Some (VArr elems extra) ->
  JsNumber.parseInt k = Some idx ->
  0 <= idx < Z.of_nat (length elems) ->
  validateInput (VObj m) (VStr (name +:+ "." +:+ k)) = Ret tt ->
  fires (name +:+ "." +:+ k) (tr_removeProp (transformers cfg)) = false ->
  removeProp cfg (VObj m) (VStr (name +:+ "." +:+ k))
    = Ret (VObj (<[name := VArr (delete (Z.to_nat idx) elems) extra]> m)).
Proof.
  intros Hn Hk Hm Hp Hi Hv Hf. unfold removeProp. cbn [is_nullish path_text].
  rewrite Hv. bind_step. rewrite (validateInput_security _ _ Hv). bind_step.
  rewrite applyTransformers_idle by done. bind_step. rewrite Hf.
  change (name +:+ "." +:+ k) with (name +:+ String "." k).
  rewrite split_app_sep, !split_avoids by done. cbn [app].
  rewrite removeProp_loop_cons. cbn [is_nullish get_member]. rewrite Hm.
  cbn [default from_option id]. bind_step. cbn [is_undefined removeProp_loop is_nullish].
  rewrite Hp. bind_step. cbn [write_back]. do 3 f_equal.
  unfold splice1. cbv zeta. destruct (decide (idx < 0)) as [?|_]; [lia|].
  rewrite Z.min_l by lia. destruct (decide (idx < _)); [done|lia].
Qed.

Lemma removeProp_splices_element_witness :
  removeProp initialConfig with_arr (VStr ("arr" +:+ "." +:+ "1"))
    = Ret (VObj {[ "arr" := array_of [VNum 1; VNum 3] ]}).
Proof.
  etransitivity.
  - apply (removeProp_splices_element initialConfig
             {[ "arr" := array_of [VNum 1; VNum 2; VNum 3] ]} "arr" "1" 1
             [Some (VNum 1); Some (VNum 2); Some (VNum 3)] ∅);
      [reflexivity|reflexivity|reflexivity|reflexivity|simpl; lia|reflexivity|reflexivity].
  - vm_compute. reflexivity.
Defined.

(** ** The logger of props *)





(** ** The debug switch *)

Lemma quiet_ret {A} (a : A) : quiet (mret a).
Proof. done. Qed.

Lemma quiet_lift {A} (m : outcome A) : quiet (Debug.lift m).
Proof. done. Qed.

Lemma quiet_throw {A} e : quiet (Debug.throw (A:=A) e).
Proof. done. Qed.

Lemma quiet_bind {A B} (m : Debug.Run A) (f : A -> Debug.Run B) :
  quiet m -> (forall a, quiet (f a)) -> quiet (m ≫= f).
Proof.
  intros Hm Hf out. rewrite exec_bind. specialize (Hm out).
  destruct (Debug.exec m out) as [[a|e|] out']; simpl in *; subst; [apply Hf|done..].
Qed.

Lemma quiet_rethrowing {A} (body : Debug.Run A) handler :
  quiet body -> (forall e, quiet (handler e)) -> quiet (Debug.rethrowing body handler).
Proof.
  intros Hm Hf out. cbn [Debug.exec Debug.rethrowing]. specialize (Hm out).
  destruct (Debug.exec body out) as [[a|e|] out']; simpl in *; subst; try done.
  specialize (Hf e out). by destruct (Debug.exec (handler e) out) as [[| |] ?].
Qed.

Lemma quiet_catching {A} (body : Debug.Run A) handler :
  quiet body -> (forall e, quiet (handler e)) -> quiet (Tagged.catching body handler).
Proof.
  intros Hm Hf out. cbn [Debug.exec Tagged.catching]. specialize (Hm out).
  destruct (Debug.exec body out) as [[a|e|] out']; simpl in *; subst; try done. apply Hf.
Qed.

Lemma quiet_log dbg owner op path v :
  Debug.enabled dbg = false -> quiet (Debug.log dbg owner op path v).
Proof. intros H out. unfold Debug.log, Debug.debugLog. by rewrite H. Qed.

Lemma quiet_log_error dbg owner path msg :
  Debug.enabled dbg = false -> quiet (Debug.log_error dbg owner path msg).
Proof. intros H out. unfold Debug.log_error, Debug.debugLog. by rewrite H. Qed.

Lemma quiet_warn dbg owner path msg :
  Debug.enabled dbg = false -> quiet (Debug.warn dbg owner path msg).
Proof. intros H out. unfold Debug.warn. by rewrite H. Qed.

Ltac quiet_step H :=
  first
    [ apply quiet_ret | apply quiet_lift | apply quiet_throw
    | apply quiet_log; exact H | apply quiet_log_error; exact H | apply quiet_warn; exact H
    | apply quiet_bind; [|intros ?]
    | apply quiet_rethrowing; [|intros ?]
    | apply quiet_catching; [|intros ?] ].

Section Quiet.
Variable dbg : Debug.DebugConfig.
Variable cfg : PropsConfig.
Variable engine : Template.TemplateEngine.
Hypothesis off : Debug.enabled dbg = false.

Lemma quiet_logging_errors {A} path (body : Debug.Run A) :
  quiet body -> quiet (Logged.logging_errors dbg path body).
Proof.
  intros Hb. unfold Logged.logging_errors, Logged.propsLogger_error.
  apply quiet_rethrowing; [done|]. intros e. by apply quiet_log_error.
Qed.

Lemma quiet_applyTransform v t data :
  quiet (Template.applyTransform dbg cfg engine v t data).
Proof.
  unfold Template.applyTransform, Template.templateLogger_error,
    Template.templateLogger_warn, Template.templateLogger_log.
  destruct (JsString.is_empty _); [repeat quiet_step off|].
  quiet_step off; [destruct (Template.same_function _ _); quiet_step off|].
  repeat quiet_step off.
Qed.

Lemma quiet_transform_loop ts : forall v data,
  quiet (Template.transform_loop dbg cfg engine v ts data).
Proof.
  induction ts as [|t ts IH]; intros v data; cbn [Template.transform_loop];
    [apply quiet_ret|].
  quiet_step off; [|apply IH].
  quiet_step off; [apply quiet_applyTransform|].
  unfold Template.templateLogger_error. quiet_step off.
Qed.

Lemma quiet_processTemplateMatch m data :
  quiet (Template.processTemplateMatch dbg cfg engine m data).
Proof.
  unfold Template.processTemplateMatch, Template.templateLogger_error,
    Template.templateLogger_log.
  destruct (JsString.is_empty _); [repeat quiet_step off|].
  quiet_step off; [quiet_step off|]. destruct a as [path ts].
  do 2 (quiet_step off; [quiet_step off|]).
  quiet_step off; [destruct (is_undefined _); repeat quiet_step off|].
  quiet_step off; [apply quiet_transform_loop|]. quiet_step off.
Qed.

Lemma quiet_replace_loop ms : forall result data,
  quiet (Template.replace_loop dbg cfg engine result ms data).
Proof.
  induction ms as [|m ms IH]; intros result data; cbn [Template.replace_loop];
    [apply quiet_ret|].
  quiet_step off; [|apply IH].
  quiet_step off; [|unfold Template.templateLogger_error; quiet_step off].
  quiet_step off; [apply quiet_processTemplateMatch|quiet_step off].
Qed.

Lemma quiet_template s data : quiet (Template.template dbg cfg engine s data).
Proof.
  unfold Template.template, Template.processTemplate, Template.templateLogger_log.
  quiet_step off; [quiet_step off|].
  quiet_step off; [apply quiet_replace_loop|]. repeat quiet_step off.
Qed.

Lemma quiet_key_value key data : quiet (Tagged.key_value dbg cfg engine key data).
Proof.
  unfold Tagged.key_value, Template.templateLogger_error, Template.templateLogger_log.
  destruct key as [f|v].
  { repeat quiet_step off. }
  destruct v; try (repeat quiet_step off).
  destruct (JsString.includes _ _); [|repeat quiet_step off].
  quiet_step off; [quiet_step off|]. destruct a as [path ts].
  do 3 (quiet_step off; [quiet_step off|]).
  destruct ts; [quiet_step off|apply quiet_applyTransform].
Qed.

Lemma quiet_tagged_loop strings : forall result keys data,
  quiet (Tagged.tagged_loop dbg cfg engine result strings keys data).
Proof.
  induction strings as [|s strings IH]; intros result keys data; cbn [Tagged.tagged_loop];
    [apply quiet_ret|].
  destruct keys as [|key keys]; [apply IH|].
  quiet_step off; [apply quiet_key_value|]. quiet_step off; [quiet_step off|apply IH].
Qed.

Lemma quiet_processTaggedTemplate strings keys data :
  quiet (Tagged.processTaggedTemplate dbg cfg engine strings keys data).
Proof.
  unfold Tagged.processTaggedTemplate, Template.templateLogger_log.
  quiet_step off; [quiet_step off|].
  quiet_step off; [apply quiet_tagged_loop|]. repeat quiet_step off.
Qed.

End Quiet.

(** X16: with debug logging disabled nothing is written: the four
    props functions, a render of a brace-style template and a render
    of a tagged template all leave the console as they found it,
    whether they return or throw. *)
Theorem disabled_debug_writes_nothing
    dbg cfg engine obj path d v source strings keys data out :
  Debug.enabled dbg = false ->
  (Debug.exec (Logged.getProp dbg cfg obj path d) out).2 = out /\
  (Debug.exec (Logged.setProp dbg cfg obj path v) out).2 = out /\
  (Debug.exec (Logged.hasProp dbg obj path) out).2 = out /\
  (Debug.exec (Logged.removeProp dbg cfg obj path) out).2 = out /\
  (Debug.exec (Template.template dbg cfg engine source data) out).2 = out /\
  (Debug.exec (Tagged.processTaggedTemplate dbg cfg engine strings keys data) out).2 = out.
Proof.
  intros off. split_and!.
  - apply quiet_logging_errors; [done|]. unfold Logged.propsLogger_log.
    do 3 (quiet_step off; [quiet_step off|]).
    destruct a1 as [cur|]; [destruct (is_undefined cur)|]; repeat quiet_step off.
  - apply quiet_logging_errors; [done|]. unfold Logged.propsLogger_log.
    repeat quiet_step off.
  - apply quiet_logging_errors; [done|]. unfold Logged.propsLogger_log.
    repeat quiet_step off.
  - unfold Logged.removeProp. destruct (is_nullish obj); [done|].
    apply quiet_logging_errors; [done|]. unfold Logged.propsLogger_log.
    do 4 (quiet_step off; [quiet_step off|]). destruct (fires _ _); quiet_step off.
  - by apply quiet_template.
  - by apply quiet_processTaggedTemplate.
Qed.

Lemma disabled_debug_writes_nothing_witness :
  (Debug.exec (Template.template debug_off initialConfig Template.initialEngine
                 "{{x | doesNotExist}}" with_x_v) []).2 = [].
Proof.
  apply (disabled_debug_writes_nothing debug_off initialConfig Template.initialEngine
           with_x_v "x" VUndefined VUndefined "{{x | doesNotExist}}" [] [] with_x_v []).
  reflexivity.
Defined.

Lemma alike_ret {A} (a : A) : alike (mret a) (mret a).
Proof. done. Qed.

Lemma alike_lift {A} (m : outcome A) : alike (Debug.lift m) (Debug.lift m).
Proof. done. Qed.

Lemma alike_throw {A} e : alike (Debug.throw (A:=A) e) (Debug.throw e).
Proof. done. Qed.

Lemma alike_bind {A B} (m1 m2 : Debug.Run A) (f1 f2 : A -> Debug.Run B) :
  alike m1 m2 -> (forall a, alike (f1 a) (f2 a)) -> alike (m1 ≫= f1) (m2 ≫= f2).
Proof.
  intros Hm Hf o1 o2. rewrite !exec_bind. specialize (Hm o1 o2).
  destruct (Debug.exec m1 o1) as [[a|e|] o1'], (Debug.exec m2 o2) as [[a'|e'|] o2'];
    simpl in *; try done; injection Hm as ->; [apply Hf|done].
Qed.

Lemma alike_writers m1 m2 : writer m1 -> writer m2 -> alike m1 m2.
Proof. intros H1 H2 o1 o2. by rewrite H1, H2. Qed.

Lemma alike_rethrowing {A} (b1 b2 : Debug.Run A) h1 h2 :
  alike b1 b2 -> (forall e, writer (h1 e)) -> (forall e, writer (h2 e)) ->
  alike (Debug.rethrowing b1 h1) (Debug.rethrowing b2 h2).
Proof.
  intros Hb H1 H2 o1 o2. cbn [Debug.exec Debug.rethrowing]. specialize (Hb o1 o2).
  destruct (Debug.exec b1 o1) as [[a|e|] o1'], (Debug.exec b2 o2) as [[a'|e'|] o2'];
    simpl in *; try done.
  injection Hb as ->. specialize (H1 e' o1'). specialize (H2 e' o2').
  destruct (Debug.exec (h1 e') o1') as [[[]| |] ?],
           (Debug.exec (h2 e') o2') as [[[]| |] ?]; simpl in *; done.
Qed.

Lemma alike_catching {A} (b1 b2 : Debug.Run A) h1 h2 :
  alike b1 b2 -> (forall e, alike (h1 e) (h2 e)) ->
  alike (Tagged.catching b1 h1) (Tagged.catching b2 h2).
Proof.
  intros Hb Hh o1 o2. cbn [Debug.exec Tagged.catching]. specialize (Hb o1 o2).
  destruct (Debug.exec b1 o1) as [[a|e|] o1'], (Debug.exec b2 o2) as [[a'|e'|] o2'];
    simpl in *; try done.
  injection Hb as ->. apply Hh.
Qed.

Lemma writer_log dbg owner op path v : writer (Debug.log dbg owner op path v).
Proof. intros out. unfold Debug.log, Debug.debugLog. by destruct (Debug.enabled dbg). Qed.

Lemma writer_log_error dbg owner path msg : writer (Debug.log_error dbg owner path msg).
Proof.
  intros out. unfold Debug.log_error, Debug.debugLog. by destruct (Debug.enabled dbg).
Qed.

Lemma writer_warn dbg owner path msg : writer (Debug.warn dbg owner path msg).
Proof. intros out. unfold Debug.warn. by destruct (Debug.enabled dbg). Qed.

Lemma writer_ret : writer (mret tt).
Proof. done. Qed.

Ltac alike_step :=
  first
    [ apply alike_ret | apply alike_lift | apply alike_throw
    | apply alike_writers;
        first [apply writer_log | apply writer_log_error | apply writer_warn
              | apply writer_ret]
    | apply alike_bind; [|intros ?]
    | apply alike_rethrowing; [|intros ?; apply writer_log_error..]
    | apply alike_catching; [|intros ?] ].

Section Alike.
Variables dbg1 dbg2 : Debug.DebugConfig.
Variable cfg : PropsConfig.
Variable engine : Template.TemplateEngine.

Lemma alike_applyTransform v t data :
  alike (Template.applyTransform dbg1 cfg engine v t data)
        (Template.applyTransform dbg2 cfg engine v t data).
Proof.
  unfold Template.applyTransform, Template.templateLogger_error,
    Template.templateLogger_warn, Template.templateLogger_log.
  destruct (JsString.is_empty _); [repeat alike_step|].
  alike_step; [destruct (Template.same_function _ _); alike_step|].
  repeat alike_step.
Qed.

Lemma alike_transform_loop ts : forall v data,
  alike (Template.transform_loop dbg1 cfg engine v ts data)
        (Template.transform_loop dbg2 cfg engine v ts data).
Proof.
  induction ts as [|t ts IH]; intros v data; cbn [Template.transform_loop]; [alike_step|].
  alike_step; [|apply IH].
  unfold Template.templateLogger_error. alike_step. apply alike_applyTransform.
Qed.

Lemma alike_processTemplateMatch m data :
  alike (Template.processTemplateMatch dbg1 cfg engine m data)
        (Template.processTemplateMatch dbg2 cfg engine m data).
Proof.
  unfold Template.processTemplateMatch, Template.templateLogger_error,
    Template.templateLogger_log.
  destruct (JsString.is_empty _); [repeat alike_step|].
  alike_step; [alike_step|]. destruct a as [path ts].
  do 2 (alike_step; [alike_step|]).
  alike_step; [destruct (is_undefined _); repeat alike_step|].
  alike_step; [apply alike_transform_loop|]. alike_step.
Qed.

Lemma alike_replace_loop ms : forall result data,
  alike (Template.replace_loop dbg1 cfg engine result ms data)
        (Template.replace_loop dbg2 cfg engine result ms data).
Proof.
  induction ms as [|m ms IH]; intros result data; cbn [Template.replace_loop];
    [alike_step|].
  alike_step; [|apply IH].
  unfold Template.templateLogger_error. alike_step.
  alike_step; [apply alike_processTemplateMatch|alike_step].
Qed.





End Alike.


(** ** Scanning a template for expressions *)

Lemma match_here_unfold s :
  Pattern.match_here s =
    match s with
    | String a (String b s') =>
        if decide (a = "{"%char) then
          if decide (b = "{"%char) then
            let '(body, rest) := Pattern.run s' in
            if JsString.is_empty body then None
            else match rest with
                 | String c (String d _) =>
                     if decide (c = "}"%char) then
                       if decide (d = "}"%char) then Some ("{{" +:+ body +:+ "}}", body)
                       else None
                     else None
                 | _ => None
                 end
          else None
        else None
    | _ => None
    end.
Proof.
  destruct s as [|a [|b s']]; [done|by destruct a as [[] [] [] [] [] [] [] []]|].
  destruct a as [[] [] [] [] [] [] [] []]; try reflexivity.
  destruct b as [[] [] [] [] [] [] [] []]; try reflexivity.
  cbn [Pattern.match_here]. rewrite !decide_True by done.
  destruct (Pattern.run s') as [body rest]. destruct (JsString.is_empty body); [done|].
  destruct rest as [|c [|d rest]]; [done|by destruct c as [[] [] [] [] [] [] [] []]|].
  destruct c as [[] [] [] [] [] [] [] []]; try reflexivity.
  destruct d as [[] [] [] [] [] [] [] []]; try reflexivity.
Qed.

Lemma match_here_needs_braces s :
  JsString.startsWith s "{{" = false -> Pattern.match_here s = None.
Proof.
  rewrite match_here_unfold. destruct s as [|a [|b s']]; try done.
  cbn [JsString.startsWith]. intros H.
  destruct (decide (a = "{"%char)) as [->|Ha]; [|done].
  destruct (decide (b = "{"%char)) as [->|Hb]; [|done].
  by destruct s'.
Qed.

Lemma run_avoids body rest :
  avoids "}" body = true ->
  Pattern.run (body +:+ String "}" rest) = (body, String "}" rest).
Proof.
  induction body as [|c body IH]; [intros _; reflexivity|].
  rewrite append_cons. simpl.
  intros [Hc%negb_true_iff%bool_decide_eq_false Hb]%andb_true_iff.
  rewrite decide_False by done. by rewrite IH.
Qed.

(** An expression at the start of a text is the match found there. *)
Lemma match_here_expression body after :
  avoids "}" body = true -> body <> EmptyString ->
  Pattern.match_here ("{{" +:+ body +:+ "}}" +:+ after)
    = Some ("{{" +:+ body +:+ "}}", body).
Proof.
  intros Hb Hne. rewrite match_here_unfold.
  change ("{{" +:+ body +:+ "}}" +:+ after)
    with (String "{" (String "{" (body +:+ String "}" (String "}" after)))).
  cbv beta iota. rewrite !decide_True by done.
  rewrite (run_avoids _ _ Hb). destruct body; [done|]. cbn [JsString.is_empty].
  by rewrite !decide_True.
Qed.

Lemma extractTemplateContent_expression body :
  avoids "}" body = true ->
  Template.extractTemplateContent ("{{" +:+ body +:+ "}}") = JsString.trim body.
Proof.
  intros Hb. unfold Template.extractTemplateContent.
  destruct (decide (body = EmptyString)) as [->|Hne]; [done|].
  pose proof (match_here_expression body EmptyString Hb Hne) as H.
  rewrite (append_empty "}}") in H.
  destruct ("{{" +:+ body +:+ "}}") eqn:E; cbn [Pattern.first_match]; by rewrite H.
Qed.

Lemma indexOf_none_cons c s p :
  JsString.indexOf (String c s) p = None ->
  JsString.startsWith (String c s) p = false /\ JsString.indexOf s p = None.
Proof.
  cbn [JsString.indexOf]. destruct (JsString.startsWith (String c s) p); [done|].
  by destruct (JsString.indexOf s p).
Qed.

Lemma match_all_from_plain s : forall skip,
  JsString.indexOf s "{{" = None -> Pattern.match_all_from s skip = [].
Proof.
  induction s as [|c s IH]; intros skip; [done|].
  intros [Hs Hi]%indexOf_none_cons. cbn [Pattern.match_all_from].
  destruct skip; [|by apply IH].
  rewrite (match_here_needs_braces _ Hs). by apply IH.
Qed.

Lemma match_all_from_cons c s :
  Pattern.match_all_from (String c s) 0 =
    match Pattern.match_here (String c s) with
    | Some (m, _) => m :: Pattern.match_all_from s (String.length m - 1)
    | None => Pattern.match_all_from s 0
    end.
Proof. reflexivity. Qed.

Lemma match_all_from_skip a : forall b,
  Pattern.match_all_from (a +:+ b) (String.length a) = Pattern.match_all_from b 0.
Proof. induction a as [|x a IH]; intros b; [done|]. rewrite append_cons. apply IH. Qed.

Lemma match_all_from_before before : forall rest,
  avoids "{" before = true ->
  Pattern.match_all_from (before +:+ rest) 0 = Pattern.match_all_from rest 0.
Proof.
  induction before as [|c before IH]; intros rest; [done|].
  rewrite append_cons. cbn [avoids Pattern.match_all_from].
  intros [Hc%negb_true_iff%bool_decide_eq_false Hb]%andb_true_iff.
  rewrite match_here_needs_braces; [by apply IH|].
  cbn [JsString.startsWith]. by rewrite bool_decide_eq_false_2 by naive_solver.
Qed.

(** The scan of a text that has an expression after a stretch without
    opening braces finds that expression first. *)
Lemma match_all_expression before body after :
  avoids "{" before = true -> avoids "}" body = true -> body <> EmptyString ->
  Pattern.match_all (before +:+ "{{" +:+ body +:+ "}}" +:+ after)
    = ("{{" +:+ body +:+ "}}") :: Pattern.match_all after.
Proof.
  intros Hp Hb Hne. unfold Pattern.match_all. rewrite (match_all_from_before _ _ Hp).
  pose proof (match_here_expression body after Hb Hne) as Hm.
  change ("{{" +:+ body +:+ "}}" +:+ after)
    with (String "{" (String "{" (body +:+ "}}" +:+ after))) in *.
  rewrite match_all_from_cons, Hm. f_equal.
  change (String "{" (body +:+ "}}" +:+ after)) with ("{" +:+ body +:+ "}}" +:+ after).
  replace ("{" +:+ body +:+ "}}" +:+ after) with (("{" +:+ body +:+ "}}") +:+ after).
  2:{ by rewrite (append_assoc "{" (body +:+ "}}") after), (append_assoc body "}}" after). }
  replace (String.length ("{{" +:+ body +:+ "}}") - 1)%nat
    with (String.length ("{" +:+ body +:+ "}}")).
  2:{ change ("{{" +:+ body +:+ "}}") with (String "{" ("{" +:+ body +:+ "}}")).
      simpl. lia. }
  apply (match_all_from_skip ("{" +:+ body +:+ "}}") after).
Qed.

Lemma indexOf_expression before m rest :
  avoids "{" before = true ->
  JsString.indexOf (before +:+ String "{" m +:+ rest) (String "{" m)
    = Some (String.length before).
Proof.
  induction before as [|c before IH].
  { intros _. change ("" +:+ ?x) with x. destruct (String "{" m +:+ rest) eqn:E;
      cbn [JsString.indexOf]; rewrite <- E, startsWith_append; done. }
  rewrite append_cons. cbn [avoids JsString.indexOf JsString.startsWith String.length].
  intros [Hc%negb_true_iff%bool_decide_eq_false Hb]%andb_true_iff.
  rewrite bool_decide_eq_false_2 by naive_solver. cbn [andb]. by rewrite IH.
Qed.

Lemma replace_expression before m rest text :
  avoids "{" before = true -> plain_replacement text = true ->
  JsString.replace (before +:+ String "{" m +:+ rest) (String "{" m) text
    = before +:+ text +:+ rest.
Proof.
  intros Hb Ht.
  rewrite (replace_first_occurrence _ _ _ _ Ht (indexOf_expression _ _ _ Hb)).
  rewrite take_append. do 2 f_equal.
  rewrite <- length_append, <- append_assoc. apply drop_append.
Qed.

Lemma expression_assoc body after :
  "{{" +:+ body +:+ "}}" +:+ after = String "{" ("{" +:+ body +:+ "}}") +:+ after.
Proof.
  change (String "{" ("{" +:+ body +:+ "}}")) with ("{{" +:+ (body +:+ "}}")).
  by rewrite (append_assoc "{{" (body +:+ "}}") after), (append_assoc body "}}" after).
Qed.

(** ** Rendering a brace-style template *)

(** The outcome of a render is the outcome of the replace loop over
    the matches of the template, from any console. *)
Lemma render_by_replace_loop dbg cfg engine source data out :
  (Template.render dbg cfg engine source data).1 =
  (Debug.exec (Template.replace_loop dbg cfg engine source (Pattern.match_all source)
                 data) out).1.
Proof.
  unfold Template.render, Template.template, Template.processTemplate.
  rewrite exec_bind.
  destruct (Debug.exec (Template.templateLogger_log _ _ _ _) []) as [[[]| |] out0] eqn:E0;
    try (by destruct dbg as [[|]]).
  cbv zeta. rewrite exec_bind.
  rewrite (alike_replace_loop dbg dbg cfg engine _ _ _ out out0).
  destruct (Debug.exec (Template.replace_loop _ _ _ _ _ _) out0) as [[r| |] out1];
    try done.
  by destruct dbg as [[|]].
Qed.

(** One step of the replace loop, by the outcome of its expression. *)
Lemma replace_loop_step dbg cfg engine result m rest data out :
  (Debug.exec (Template.replace_loop dbg cfg engine result (m :: rest) data) out).1 =
    match (Debug.exec (Template.processTemplateMatch dbg cfg engine m data) out).1 with
    | Ret text =>
        (Debug.exec (Template.replace_loop dbg cfg engine (JsString.replace result m text)
                       rest data) out).1
    | Throw e => Throw e
    | Unmodelled => Unmodelled
    end.
Proof.
  cbn [Template.replace_loop]. rewrite exec_bind. cbn [Debug.exec Debug.rethrowing].
  rewrite exec_bind.
  destruct (Debug.exec (Template.processTemplateMatch _ _ _ _ _) out) as [[text|e|] out1];
    cbn [fst]; try (by destruct dbg as [[|]]).
  run_step. apply alike_replace_loop.
Qed.

(** X18: a template in which two opening braces never follow each
    other is returned as it is, whatever the data: a render only looks
    at the data when it evaluates an expression. *)
Theorem text_without_expression_is_kept dbg cfg engine source data :
  JsString.includes source "{{" = false ->
  (Template.render dbg cfg engine source data).1 = Ret source.
Proof.
  intros Hs%includes_false.
  rewrite (render_by_replace_loop _ _ _ _ _ []). unfold Pattern.match_all.
  by rewrite (match_all_from_plain _ _ Hs).
Qed.

Lemma text_without_expression_is_kept_witness :
  (Template.render debug_on initialConfig Template.initialEngine "a {b} c" VNull).1
    = Ret "a {b} c".
Proof.
  apply (text_without_expression_is_kept debug_on initialConfig Template.initialEngine
           "a {b} c" VNull).
  reflexivity.
Defined.

(** X19: white space between the braces and the expression is not
    significant: an expression evaluates as the same expression
    without the white space around it, console lines included. *)
Theorem expression_padding_is_ignored dbg cfg engine body data :
  avoids "}" body = true ->
  Template.processTemplateMatch dbg cfg engine ("{{" +:+ body +:+ "}}") data =
  Template.processTemplateMatch dbg cfg engine ("{{" +:+ JsString.trim body +:+ "}}") data.
Proof.
  intros Hb. unfold Template.processTemplateMatch.
  rewrite !extractTemplateContent_expression by (try apply avoids_trim; done).
  by rewrite trim_idem.
Qed.

Lemma expression_padding_is_ignored_witness :
  Template.processTemplateMatch debug_on initialConfig Template.initialEngine
    ("{{" +:+ " x " +:+ "}}") with_x_v =
  Template.processTemplateMatch debug_on initialConfig Template.initialEngine
    ("{{" +:+ JsString.trim " x " +:+ "}}") with_x_v.
Proof.
  apply (expression_padding_is_ignored debug_on initialConfig Template.initialEngine " x "
           with_x_v).
  reflexivity.
Defined.

(** X20: a template made of a text without opening brace, one
    expression and a text without two opening braces in a row renders
    as the two texts around the string the expression evaluates to,
    when that string has no [$] in it. *)
Theorem render_single_expression dbg cfg engine before body after data text out :
  avoids "{" before = true ->
  avoids "}" body = true ->
  JsString.includes after "{{" = false ->
  (Debug.exec (Template.processTemplateMatch dbg cfg engine ("{{" +:+ body +:+ "}}") data)
     out).1 = Ret text ->
  plain_replacement text = true ->
  (Template.render dbg cfg engine (before +:+ "{{" +:+ body +:+ "}}" +:+ after) data).1
    = Ret (before +:+ text +:+ after).
Proof.
  intros Hp Hb Ha%includes_false Hm Ht.
  assert (body <> EmptyString) as Hne.
  { intros ->. by destruct dbg as [[|]]. }
  rewrite (render_by_replace_loop _ _ _ _ _ out).
  rewrite (match_all_expression _ _ _ Hp Hb Hne), replace_loop_step, Hm.
  unfold Pattern.match_all. rewrite (match_all_from_plain _ _ Ha).
  cbn [Template.replace_loop]. run_step. cbn [fst]. f_equal.
  rewrite expression_assoc.
  change ("{{" +:+ body +:+ "}}") with (String "{" ("{" +:+ body +:+ "}}")).
  by apply replace_expression.
Qed.

Lemma render_single_expression_witness :
  (Template.render debug_on initialConfig Template.initialEngine
     ("Hello, " +:+ "{{" +:+ "x" +:+ "}}" +:+ "!") with_x_v).1 = Ret ("Hello, " +:+ "v" +:+ "!").
Proof.
  apply (render_single_expression debug_on initialConfig Template.initialEngine
           "Hello, " "x" "!" with_x_v "v" []); reflexivity.
Defined.

(** X21: an expression that is a bare path, with no transform,
    evaluates to the text of what [getProp] returns for the path: the
    value converted to a string ([null] printing as [null]), or the
    fallback text of the engine when [getProp] returns [undefined].
    A missing variable thus renders as the fallback configured with
    [props.use] when there is one, and as the engine's fallback text
    otherwise.  (Stated for values that are not objects or arrays.) *)
Theorem expression_renders_value dbg cfg engine body data v out :
  avoids "}" body = true ->
  avoids "|" body = true ->
  is_container data = true ->
  getProp cfg data (VStr (JsString.trim body)) VUndefined = Ret v ->
  is_container v = false ->
  (Debug.exec (Template.processTemplateMatch dbg cfg engine ("{{" +:+ body +:+ "}}") data)
     out).1
    = Ret (if is_undefined v then Template.defaultValue engine else to_string v).
Proof.
  intros Hb Hp Hd Hg Hv.
  pose proof (getProp_ret_valid _ _ _ _ _ Hg) as Hok.
  pose proof (validateInput_security _ _ Hok) as Hsec.
  apply validateInput_ret in Hok as (_ & Hvalid & _). cbn [valid_path] in Hvalid.
  apply negb_true_iff in Hvalid.
  assert (JsString.is_empty (JsString.trim body) = false) as Hne.
  { by apply orb_false_iff in Hvalid as [? _]. }
  assert (Template.extractTransformers (JsString.trim body) = Ret (JsString.trim body, []))
    as Hex.
  { unfold Template.extractTransformers.
    rewrite (split_avoids _ _ (avoids_trim _ _ Hp)). cbn [fmap list_fmap hd tail].
    by rewrite trim_idem, Hsec. }
  assert (Template.validateTemplateInput data (JsString.trim body) = Ret tt) as Hin.
  { unfold Template.validateTemplateInput. rewrite Hd, Hvalid, Hsec.
    by rewrite (includes_avoids _ _ (avoids_trim _ _ Hp)). }
  unfold Template.processTemplateMatch.
  rewrite (extractTemplateContent_expression _ Hb), Hne, Hex.
  rewrite !exec_bind. run_step. rewrite Hin, Hg.
  destruct v; try done; destruct dbg as [[|]]; reflexivity.
Qed.

Lemma expression_renders_value_witness :
  (Debug.exec (Template.processTemplateMatch debug_on fallback_NA Template.initialEngine
                 ("{{" +:+ " y " +:+ "}}") with_x_v) []).1 = Ret "N/A".
Proof.
  apply (expression_renders_value debug_on fallback_NA Template.initialEngine " y " with_x_v
           (VStr "N/A") []); reflexivity.
Defined.

(** X22: the first expression that fails rejects the whole render
    with its own error, whatever follows it in the template. *)
Theorem render_rejects_with_first_error dbg cfg engine before body after data e out :
  avoids "{" before = true ->
  avoids "}" body = true ->
  body <> EmptyString ->
  (Debug.exec (Template.processTemplateMatch dbg cfg engine ("{{" +:+ body +:+ "}}") data)
     out).1 = Throw e ->
  (Template.render dbg cfg engine (before +:+ "{{" +:+ body +:+ "}}" +:+ after) data).1
    = Throw e.
Proof.
  intros Hp Hb Hne Hm.
  rewrite (render_by_replace_loop _ _ _ _ _ out).
  by rewrite (match_all_expression _ _ _ Hp Hb Hne), replace_loop_step, Hm.
Qed.

Lemma render_rejects_with_first_error_witness :
  (Template.render debug_on initialConfig Template.initialEngine
     ("a " +:+ "{{" +:+ "user.__proto__" +:+ "}}" +:+ " {{x}}") with_x_v).1
    = Throw (security_violation "__proto__").
Proof.
  apply (render_rejects_with_first_error debug_on initialConfig Template.initialEngine
           "a " "user.__proto__" " {{x}}" with_x_v (security_violation "__proto__") []);
    [reflexivity|reflexivity|discriminate|reflexivity].
Defined.

(** X23: an expression with only white space between its braces
    rejects the render with the template error [Empty path in
    template].  (Braces with nothing at all between them are no
    expression and stay in the text.) *)
Theorem blank_expression_is_rejected dbg cfg engine before body after data :
  avoids "{" before = true ->
  avoids "}" body = true ->
  body <> EmptyString ->
  JsString.trim body = EmptyString ->
  (Template.render dbg cfg engine (before +:+ "{{" +:+ body +:+ "}}" +:+ after) data).1
    = Throw (Template.template_error Template.EMPTY_PATH).
Proof.
  intros Hp Hb Hne Ht.
  rewrite (render_by_replace_loop _ _ _ _ _ []).
  rewrite (match_all_expression _ _ _ Hp Hb Hne), replace_loop_step.
  unfold Template.processTemplateMatch.
  rewrite (extractTemplateContent_expression _ Hb), Ht. by destruct dbg as [[|]].
Qed.

Lemma blank_expression_is_rejected_witness :
  (Template.render debug_on initialConfig Template.initialEngine
     ("Hello " +:+ "{{" +:+ "  " +:+ "}}" +:+ "!") with_x_v).1
    = Throw (Template.template_error Template.EMPTY_PATH).
Proof.
  apply (blank_expression_is_rejected debug_on initialConfig Template.initialEngine
           "Hello " "  " "!" with_x_v); [reflexivity|reflexivity|discriminate|reflexivity].
Defined.

Lemma empty_braces_are_text :
  (Template.render debug_on initialConfig Template.initialEngine "Hello {{}}!" with_x_v).1
    = Ret "Hello {{}}!".
Proof. vm_compute. reflexivity. Qed.

(** X24: the arguments of a transform never make it fail: an argument
    that is not a literal is looked up in the data, and when the
    lookup throws (an empty or reserved path, data that is [null])
    the argument is passed as its own text. *)
Theorem processArgs_never_throws cfg args data e :
  Template.processArgs cfg args data <> Throw e.
Proof.
  induction args as [|arg rest IH]; [done|]. cbn [Template.processArgs].
  assert (Template.processArg cfg arg data <> Throw e) as Ha.
  { unfold Template.processArg. destruct (_ || _); [done|].
    destruct (JsNumber.ofString _); try done.
    repeat case_decide; try done.
    destruct (getProp _ _ _ _) as [w| |]; try done. by destruct (is_undefined w). }
  destruct (Template.processArg cfg arg data) as [w| |]; simpl; try done.
  destruct (Template.processArgs cfg rest data) as [ws|e'|]; simpl; try done.
  intros [= ->]. by apply IH.
Qed.

(** ** Every expression of a template *)

Lemma evaluates_body dbg cfg engine data p :
  evaluates dbg cfg engine data p -> piece_body p <> EmptyString.
Proof.
  intros (_ & H & _) E. rewrite E in H. by destruct dbg as [[|]].
Qed.

Lemma template_text_cons p rest :
  template_text (p :: rest)
    = "{{" +:+ piece_body p +:+ "}}" +:+ (piece_text p +:+ template_text rest).
Proof.
  cbn [template_text]. unfold expression.
  by rewrite (append_assoc "{{"), (append_assoc (piece_body p) "}}").
Qed.

Lemma replace_loop_pieces dbg cfg engine data pieces : forall prefix,
  avoids "{" prefix = true ->
  Forall (evaluates dbg cfg engine data) pieces ->
  (Debug.exec (Template.replace_loop dbg cfg engine (prefix +:+ template_text pieces)
                 (Pattern.match_all (template_text pieces)) data) []).1
    = Ret (prefix +:+ rendered_text pieces).
Proof.
  induction pieces as [|p rest IH]; intros prefix Hp Hall.
  { reflexivity. }
  apply Forall_cons in Hall as [Hev Hall].
  pose proof (evaluates_body _ _ _ _ _ Hev) as Hne.
  destruct Hev as (Hb & Hm & Hv & Hd & Ht).
  rewrite template_text_cons.
  pose proof (match_all_expression "" _ (piece_text p +:+ template_text rest) eq_refl Hb Hne)
    as Hfirst.
  change ("" +:+ ?x) with x in Hfirst. rewrite Hfirst at 1. clear Hfirst.
  unfold Pattern.match_all at 1. rewrite (match_all_from_before _ _ Ht).
  fold (Pattern.match_all (template_text rest)).
  rewrite replace_loop_step. unfold expression in Hm. rewrite Hm.
  rewrite expression_assoc.
  change ("{{" +:+ piece_body p +:+ "}}") with (String "{" ("{" +:+ piece_body p +:+ "}}")).
  rewrite (replace_expression _ _ _ _ Hp Hd).
  rewrite <- (append_assoc (piece_value p)), <- (append_assoc prefix).
  rewrite IH; [|by rewrite !avoids_append, Hp, Hv, Ht|done].
  cbn [rendered_text]. f_equal.
  by rewrite !append_assoc.
Qed.

(** X29: a template is rendered by substituting every expression, in
    order, by the string it evaluates to, identical expressions each
    by its own evaluation: for a template made of a text and of
    expressions each followed by a text, the texts having no opening
    brace and the values neither an opening brace nor a dollar sign,
    the render is the same sequence with each expression replaced by
    its value. *)
Theorem render_substitutes_expressions dbg cfg engine before pieces data :
  avoids "{" before = true ->
  Forall (evaluates dbg cfg engine data) pieces ->
  (Template.render dbg cfg engine (before +:+ template_text pieces) data).1
    = Ret (before +:+ rendered_text pieces).
Proof.
  intros Hp Hall. rewrite (render_by_replace_loop _ _ _ _ _ []).
  unfold Pattern.match_all. rewrite (match_all_from_before _ _ Hp).
  by apply replace_loop_pieces.
Qed.

Lemma render_substitutes_expressions_witness :
  (Template.render debug_on initialConfig Template.initialEngine
     ("Hello " +:+ template_text two_pieces) with_x_v).1
    = Ret ("Hello " +:+ rendered_text two_pieces).
Proof.
  apply (render_substitutes_expressions debug_on initialConfig Template.initialEngine
           "Hello " two_pieces with_x_v).
  - reflexivity.
  - apply Forall_cons. split; [repeat split; reflexivity|].
    apply Forall_cons. split; [repeat split; reflexivity|].
    constructor.
Defined.

(** ** Tagged templates *)

(** X26: in a tagged template, an error thrown by a key that is a
    function is not passed on as it is: the render rejects with a
    plain [Error] whose message is [Error evaluating function: ]
    followed by the message of the original error. *)
Theorem tagged_function_error_is_wrapped dbg cfg engine s strings f keys data e out :
  f data = Throw e ->
  (Debug.exec (Tagged.processTaggedTemplate dbg cfg engine (s :: strings)
                 (Tagged.KeyFunction f :: keys) data) out).1
    = Throw (mkError ClsError (Tagged.FUNCTION_ERROR +:+ ": " +:+ err_message e)).
Proof.
  intros Hf. unfold Tagged.processTaggedTemplate. cbn [Tagged.tagged_loop Tagged.key_value].
  destruct dbg as [[|]]; run_step; cbn [Debug.exec Tagged.catching]; run_step;
    by rewrite Hf.
Qed.

Lemma tagged_function_error_is_wrapped_witness :
  (Debug.exec (Tagged.processTaggedTemplate debug_on initialConfig Template.initialEngine
                 [""; ""] [Tagged.KeyFunction failing_function] (VObj ∅)) []).1
    = Throw (mkError ClsError "Error evaluating function: Function error").
Proof.
  apply (tagged_function_error_is_wrapped debug_on initialConfig Template.initialEngine
           "" [""] failing_function [] (VObj ∅) (mkError ClsError "Function error") []).
  reflexivity.
Defined.

(** X27: in a tagged template, a key that is a bare path whose value
    is [null] or missing (and no fallback is configured) contributes
    nothing to the result, where the brace style prints [null], or the
    fallback text of the engine for a missing value. *)
Theorem tagged_nullish_value_renders_nothing
    dbg cfg engine before after key data v out :
  avoids "|" key = true ->
  is_container data = true ->
  getProp cfg data (VStr key) VUndefined = Ret v ->
  is_nullish v = true ->
  (Debug.exec (Tagged.processTaggedTemplate dbg cfg engine [before; after]
                 [Tagged.KeyValue (VStr key)] data) out).1
    = Ret (before +:+ after).
Proof.
  intros Hp Hd Hg Hv.
  pose proof (getProp_ret_valid _ _ _ _ _ Hg) as Hok.
  pose proof (validateInput_security _ _ Hok) as Hsec.
  apply validateInput_ret in Hok as (_ & Hvalid & _). cbn [valid_path] in Hvalid.
  apply negb_true_iff in Hvalid.
  assert (Template.validateTemplateInput data key = Ret tt) as Hin.
  { unfold Template.validateTemplateInput. rewrite Hd, Hvalid, Hsec.
    by rewrite (includes_avoids _ _ Hp). }
  unfold Tagged.processTaggedTemplate. cbn [Tagged.tagged_loop Tagged.key_value].
  rewrite (includes_avoids _ _ Hp).
  rewrite !exec_bind. run_step. rewrite Hin, Hg. unfold nullish_coalesce. rewrite Hv.
  change ("" +:+ before) with before.
  destruct dbg as [[|]]; run_step;
    cbn [Tagged.text_of is_nullish has_own ToString to_string]; run_step;
    by rewrite append_empty.
Qed.

Lemma tagged_nullish_value_renders_nothing_witness :
  (Debug.exec (Tagged.processTaggedTemplate debug_on initialConfig Template.initialEngine
                 ["a: "; "."] [Tagged.KeyValue (VStr "a")] with_null) []).1
    = Ret ("a: " +:+ ".").
Proof.
  apply (tagged_nullish_value_renders_nothing debug_on initialConfig Template.initialEngine
           "a: " "." "a" with_null VNull []); reflexivity.
Defined.

(** The brace style prints the same [null] as text. *)
Lemma brace_null_renders_text :
  (Template.render debug_on initialConfig Template.initialEngine "a: {{a}}." with_null).1
    = Ret "a: null.".
Proof. vm_compute. reflexivity. Qed.

(** X28: in a tagged template, a key with two transforms applies
    neither of them.  The transforms are joined again with [|] and
    handed over as one expression, so the name looked up is [t1|t2];
    when nothing is registered under that name the default transform
    is used (here the initial one, the identity) and the value of the
    path comes out unchanged, whatever is registered under [t1] and
    under [t2].  The brace style applies [t1] and then [t2]. *)
Theorem tagged_chain_is_one_name
    dbg cfg registry dv path t1 t2 data v text before after out :
  let engine := {| Template.transformers := registry;
                   Template.defaultTransformer := Template.identity;
                   Template.defaultValue := dv |} in
  let key := path +:+ "|" +:+ t1 +:+ "|" +:+ t2 in
  avoids "|" path = true -> avoids "|" t1 = true -> avoids "|" t2 = true ->
  JsString.trim path = path -> JsString.trim t1 = t1 -> JsString.trim t2 = t2 ->
  avoids ":" t1 = true -> avoids ":" t2 = true ->
  validateSecurityTerms t1 = Ret tt -> validateSecurityTerms t2 = Ret tt ->
  registry !! (t1 +:+ "|" +:+ t2) = None ->
  is_container data = true ->
  getProp cfg data (VStr path) VUndefined = Ret v ->
  Tagged.text_of (nullish_coalesce v (VStr EmptyString)) = Ret text ->
  (Debug.exec (Tagged.processTaggedTemplate dbg cfg engine [before; after]
                 [Tagged.KeyValue (VStr key)] data) out).1
    = Ret (before +:+ text +:+ after).
Proof.
  intros engine key Hp H1 H2 Tp T1 T2 C1 C2 S1 S2 Hr Hd Hg Ht. subst engine key.
  pose proof (getProp_ret_valid _ _ _ _ _ Hg) as Hok.
  pose proof (validateInput_security _ _ Hok) as Hsec.
  apply validateInput_ret in Hok as (_ & Hvalid & _). cbn [valid_path] in Hvalid.
  apply negb_true_iff in Hvalid.
  assert (Template.validateTemplateInput data path = Ret tt) as Hin.
  { unfold Template.validateTemplateInput. rewrite Hd, Hvalid, Hsec.
    by rewrite (includes_avoids _ _ Hp). }
  change (path +:+ "|" +:+ t1 +:+ "|" +:+ t2)
    with (path +:+ String "|" (t1 +:+ String "|" t2)).
  assert (Template.extractTransformers (path +:+ String "|" (t1 +:+ String "|" t2))
            = Ret (path, [t1; t2])) as Hex.
  { unfold Template.extractTransformers. rewrite !split_app_sep.
    rewrite !split_avoids by done. cbn [app fmap list_fmap hd tail].
    rewrite Tp, T1, T2, Hsec. cbn [Template.check_transformers]. by rewrite S1, S2. }
  unfold Tagged.processTaggedTemplate. cbn [Tagged.tagged_loop Tagged.key_value].
  change "|" with (String "|" EmptyString) at 1. rewrite includes_separator.
  rewrite !exec_bind. run_step. rewrite Hex. run_step. rewrite Hin, Hg.
  cbn [join]. unfold Template.applyTransform.
  change (t1 +:+ "|" +:+ t2) with (t1 +:+ String "|" t2).
  assert (JsString.indexOf (t1 +:+ String "|" t2) ":" = None) as ->.
  { apply includes_false. apply (includes_avoids ":").
    rewrite avoids_append. cbn [avoids]. rewrite C1, C2. done. }
  rewrite is_empty_append. cbn [Template.transformers Template.defaultTransformer].
  change (t1 +:+ "|" +:+ t2) with (t1 +:+ String "|" t2) in Hr. rewrite Hr.
  cbn [default from_option id JsString.is_empty Template.processArgs].
  change (Template.same_function Template.identity Template.identity) with true.
  change ("" +:+ before) with before.
  destruct dbg as [[|]]; run_step; cbn [Template.identity Template.fn_call]; run_step;
    rewrite Ht; run_step; by rewrite append_assoc.
Qed.

Lemma tagged_chain_is_one_name_witness :
  (Debug.exec (Tagged.processTaggedTemplate debug_on initialConfig chain_engine
                 ["= "; "."]
                 [Tagged.KeyValue (VStr ("x" +:+ "|" +:+ "add" +:+ "|" +:+ "multiply"))]
                 with_x_3) []).1 = Ret ("= " +:+ "3" +:+ ".").
Proof.
  apply (tagged_chain_is_one_name debug_on initialConfig (Template.transformers chain_engine)
           EmptyString "x" "add" "multiply" with_x_3 (VNum 3) "3" "= " "." []);
    reflexivity.
Defined.
